(** * find-replace-rename: the rename-planning pipeline of [file_renamer.py]

    A shallow embedding of the matcher, the collision resolver, the planner,
    the approval loop and the executor of [file_renamer.py], together with
    the properties of its specification.

    Conventions of the model:
    - a Python [str] is a [string]; its characters are the 8-bit [ascii]
      characters and case folding acts on the letters A-Z only;
    - a Python [int] is a [Z];
    - [os.path] is [posixpath] (separator [/], extension separator [.]);
    - the file system is seen through [os.path.exists], [os.walk],
      [shutil.copy2] and [os.rename], which are parameters of the model;
    - a [while True] loop takes a fuel argument, and running out of fuel is
      a result of its own ([OutOfFuel]), never confused with a value. *)

From Stdlib Require Import String Ascii List ZArith Lia Bool Arith.
From Stdlib Require Import DecimalString.
Import ListNotations.

Local Open Scope string_scope.
Local Open Scope Z_scope.

(** ** Python strings *)

Module PyStr.

Definition is_upper (c : ascii) : bool :=
  let n := nat_of_ascii c in (65 <=? n)%nat && (n <=? 90)%nat.

Definition is_lower (c : ascii) : bool :=
  let n := nat_of_ascii c in (97 <=? n)%nat && (n <=? 122)%nat.

Definition is_digit (c : ascii) : bool :=
  let n := nat_of_ascii c in (48 <=? n)%nat && (n <=? 57)%nat.

Definition is_octdigit (c : ascii) : bool :=
  let n := nat_of_ascii c in (48 <=? n)%nat && (n <=? 55)%nat.

Definition is_ascii_letter (c : ascii) : bool := is_upper c || is_lower c.

(** [" \t\n\r\x0b\x0c"], what [str.strip()] removes. *)
Definition is_space (c : ascii) : bool :=
  let n := nat_of_ascii c in
  (n =? 32)%nat || ((9 <=? n)%nat && (n <=? 13)%nat).

Definition lower_char (c : ascii) : ascii :=
  if is_upper c then ascii_of_nat (nat_of_ascii c + 32) else c.

(** [s.lower()] *)
Fixpoint lower (s : string) : string :=
  match s with
  | EmptyString => EmptyString
  | String c r => String (lower_char c) (lower r)
  end.

(** [s.startswith(p)], the characters compared with [eqc]. *)
Fixpoint starts_with (eqc : ascii -> ascii -> bool) (p s : string) : bool :=
  match p, s with
  | EmptyString, _ => true
  | String _ _, EmptyString => false
  | String a p', String b s' => eqc a b && starts_with eqc p' s'
  end.

Definition startswith (p s : string) : bool := starts_with Ascii.eqb p s.

(** [sub in s] *)
Fixpoint contains (sub s : string) : bool :=
  startswith sub s ||
  match s with
  | EmptyString => false
  | String _ r => contains sub r
  end.

(** [c in s] for a single character. *)
Fixpoint has_char (c : ascii) (s : string) : bool :=
  match s with
  | EmptyString => false
  | String a r => Ascii.eqb a c || has_char c r
  end.

(** Left-to-right replacement of the non-overlapping occurrences of [old],
    as [str.replace] and [re.sub] on a literal pattern do it.  [skip] is
    the number of characters of the current occurrence still to be
    dropped; an empty [old] occurs before every character and at the end. *)
Fixpoint replace_scan (eqc : ascii -> ascii -> bool) (old new : string)
         (skip : nat) (s : string) : string :=
  match s with
  | EmptyString =>
      match skip, old with
      | O, EmptyString => new
      | _, _ => EmptyString
      end
  | String c r =>
      match skip with
      | S k => replace_scan eqc old new k r
      | O =>
          match old with
          | EmptyString => new ++ String c (replace_scan eqc old new O r)
          | String _ old' =>
              if starts_with eqc old s
              then new ++ replace_scan eqc old new (String.length old') r
              else String c (replace_scan eqc old new O r)
          end
      end
  end.

(** [s.replace(old, new)] *)
Definition replace (old new s : string) : string :=
  replace_scan Ascii.eqb old new O s.

(** [s.rfind(c)] for a single character: the last index, or [-1]. *)
Fixpoint rfind_from (c : ascii) (s : string) (i last : Z) : Z :=
  match s with
  | EmptyString => last
  | String a r => rfind_from c r (i + 1) (if Ascii.eqb a c then i else last)
  end.

Definition rfind (c : ascii) (s : string) : Z := rfind_from c s 0 (-1).

(** [s[:i]] and [s[i:]] for [0 <= i]. *)
Fixpoint take (n : nat) (s : string) : string :=
  match n, s with
  | O, _ => EmptyString
  | S _, EmptyString => EmptyString
  | S k, String c r => String c (take k r)
  end.

Fixpoint drop (n : nat) (s : string) : string :=
  match n, s with
  | O, _ => s
  | S _, EmptyString => EmptyString
  | S k, String _ r => drop k r
  end.

Definition slice_to (i : Z) (s : string) : string := take (Z.to_nat i) s.
Definition slice_from (i : Z) (s : string) : string := drop (Z.to_nat i) s.

(** [s.rstrip(c)] for one character [c]. *)
Fixpoint rstrip_char (c : ascii) (s : string) : string :=
  match s with
  | EmptyString => EmptyString
  | String a r =>
      match rstrip_char c r with
      | EmptyString => if Ascii.eqb a c then EmptyString else String a EmptyString
      | r' => String a r'
      end
  end.

(** [s == c * len(s)] *)
Fixpoint all_char (c : ascii) (s : string) : bool :=
  match s with
  | EmptyString => true
  | String a r => Ascii.eqb a c && all_char c r
  end.

(** [s.endswith(c)] for one character. *)
Fixpoint ends_with_char (c : ascii) (s : string) : bool :=
  match s with
  | EmptyString => false
  | String a EmptyString => Ascii.eqb a c
  | String _ r => ends_with_char c r
  end.

(** [s.strip()] *)
Fixpoint lstrip (s : string) : string :=
  match s with
  | EmptyString => EmptyString
  | String a r => if is_space a then lstrip r else s
  end.

Fixpoint rstrip (s : string) : string :=
  match s with
  | EmptyString => EmptyString
  | String a r =>
      match rstrip r with
      | EmptyString => if is_space a then EmptyString else String a EmptyString
      | r' => String a r'
      end
  end.

Definition strip (s : string) : string := rstrip (lstrip s).

(** [str(i)] / [f"{i}"] *)
Definition str_of_int (i : Z) : string := NilZero.string_of_int (Z.to_int i).

(** [x in xs] for a list of strings. *)
Definition in_list (x : string) (xs : list string) : bool :=
  existsb (String.eqb x) xs.

End PyStr.

(** ** [posixpath] *)

Module PosixPath.
Import PyStr.

Definition sep : ascii := "/"%char.
Definition extsep : ascii := "."%char.

(** [posixpath.split]:
<<
  i = p.rfind(sep) + 1
  head, tail = p[:i], p[i:]
  if head and head != sep*len(head):
      head = head.rstrip(sep)
  return head, tail
>> *)
Definition split (p : string) : string * string :=
  let i := rfind sep p + 1 in
  let head := slice_to i p in
  let tail := slice_from i p in
  let head :=
    if negb (String.eqb head "") && negb (all_char sep head)
    then rstrip_char sep head else head in
  (head, tail).

Definition dirname (p : string) : string := fst (split p).

(** [posixpath.basename]: [i = p.rfind(sep) + 1; return p[i:]] *)
Definition basename (p : string) : string :=
  slice_from (rfind sep p + 1) p.

(** [posixpath.join(a, b)] for two components:
<<
  if b.startswith(sep): path = b
  elif not path or path.endswith(sep): path += b
  else: path += sep + b
>> *)
Definition join (a b : string) : string :=
  if startswith "/" b then b
  else if String.eqb a "" || ends_with_char sep a then a ++ b
  else a ++ String sep b.

(** The loop of [genericpath._splitext] that skips the leading dots of
    the file name: [true] when some character in [p[k:dot]] is not a dot. *)
Fixpoint not_all_dots (s : string) : bool :=
  match s with
  | EmptyString => false
  | String a r => negb (Ascii.eqb a extsep) || not_all_dots r
  end.

(** [posixpath.splitext]:
<<
  sepIndex = p.rfind(sep)
  dotIndex = p.rfind(extsep)
  if dotIndex > sepIndex:
      filenameIndex = sepIndex + 1
      while filenameIndex < dotIndex:
          if p[filenameIndex:filenameIndex+1] != extsep:
              return p[:dotIndex], p[dotIndex:]
          filenameIndex += 1
  return p, p[:0]
>> *)
Definition splitext (p : string) : string * string :=
  let sepIndex := rfind sep p in
  let dotIndex := rfind extsep p in
  if (sepIndex <? dotIndex)
     && not_all_dots (slice_to (dotIndex - (sepIndex + 1))
                               (slice_from (sepIndex + 1) p))
  then (slice_to dotIndex p, slice_from dotIndex p)
  else (p, "").

(** The heads that [split] returns: all separators, or not ending with
    one (the empty head among them). *)
Definition is_head (d : string) : Prop :=
  all_char sep d = true \/ ends_with_char sep d = false.

End PosixPath.

Import PyStr PosixPath.

(** ** Outcomes of a computation that can raise or loop *)

Inductive exn : Type :=
| ReError      (* re.error, raised by the [re] module *)
| ValueError   (* raised by [regex_replace_name] for an invalid pattern *)
| EOFError.    (* raised by [input()] at the end of the input *)

Inductive outcome (A : Type) : Type :=
| Done (a : A)
| Raised (e : exn)
| OutOfFuel.

Arguments Done {A} a.
Arguments Raised {A} e.
Arguments OutOfFuel {A}.

Definition bind {A B : Type} (m : outcome A) (k : A -> outcome B) : outcome B :=
  match m with
  | Done a => k a
  | Raised e => Raised e
  | OutOfFuel => OutOfFuel
  end.

Notation "x <- m ;; k" := (bind m (fun x => k))
  (at level 61, m at next level, right associativity).

(** ** The part of Python's [re] module the program uses *)

Module PyRe.

(** What [file_renamer.py] asks of [re]: [re.compile(pattern, flags)]
    with [flags] either [0] or [re.IGNORECASE], [rx.search(s) is not None]
    and [rx.sub(repl, s)].  [None] is a raised [re.error]. *)
Record engine : Type := Engine {
  pattern : Type;
  compile : string -> bool -> option pattern;   (* the bool: IGNORECASE *)
  search : pattern -> string -> bool;
  sub : pattern -> string -> string -> option string;
}.

(** [re.escape]: a backslash before each of
    [()[]{}?*+-|^$\.&~# \t\n\r\v\f]. *)
Definition special_chars : string :=
  "()[]{}?*+-|^$\.&~# " ++
  String (ascii_of_nat 9) (String (ascii_of_nat 10) (String (ascii_of_nat 13)
  (String (ascii_of_nat 11) (String (ascii_of_nat 12) "")))).

Definition is_special (c : ascii) : bool := has_char c special_chars.

Fixpoint escape (s : string) : string :=
  match s with
  | EmptyString => EmptyString
  | String c r =>
      if is_special c then String "\" (String c (escape r))
      else String c (escape r)
  end.

(** *** Replacement templates of a pattern without groups

    [re._parser.parse_template] for a pattern whose [groups] is 0: the
    only group that can be referenced is group 0, the whole match. *)
Inductive titem : Type :=
| TLit (c : ascii)
| TWhole.

Definition octal_value (c : ascii) : nat := nat_of_ascii c - 48.

(** After [\g<]: a name made of zeros only, closed by [>], refers to
    group 0; every other name is an invalid or unknown group. *)
Fixpoint group_zero_name (seen : bool) (s : string) : option string :=
  match s with
  | String ">" r => if seen then Some r else None
  | String "0" r => group_zero_name true r
  | _ => None
  end.

Definition escape_char (c : ascii) : option ascii :=
  let n := nat_of_ascii c in
  if (n =? 97)%nat then Some (ascii_of_nat 7)         (* \a *)
  else if (n =? 98)%nat then Some (ascii_of_nat 8)    (* \b *)
  else if (n =? 102)%nat then Some (ascii_of_nat 12)  (* \f *)
  else if (n =? 110)%nat then Some (ascii_of_nat 10)  (* \n *)
  else if (n =? 114)%nat then Some (ascii_of_nat 13)  (* \r *)
  else if (n =? 116)%nat then Some (ascii_of_nat 9)   (* \t *)
  else if (n =? 118)%nat then Some (ascii_of_nat 11)  (* \v *)
  else if (n =? 92)%nat then Some "\"%char            (* \\ *)
  else None.

Fixpoint parse_template (fuel : nat) (s : string) : option (list titem) :=
  match fuel with
  | O => None
  | S fuel =>
      match s with
      | EmptyString => Some []
      | String "\" EmptyString => None          (* bad escape (end of pattern) *)
      | String "\" (String c r) =>
          if Ascii.eqb c "g" then
            match r with
            | String "<" r1 =>
                match group_zero_name false r1 with
                | Some r2 => option_map (cons TWhole) (parse_template fuel r2)
                | None => None
                end
            | _ => None                          (* missing < *)
            end
          else if Ascii.eqb c "0" then
            match r with
            | String d1 r1 =>
                if is_octdigit d1 then
                  match r1 with
                  | String d2 r2 =>
                      if is_octdigit d2 then
                        option_map
                          (cons (TLit (ascii_of_nat
                             ((octal_value d1 * 8 + octal_value d2) mod 256))))
                          (parse_template fuel r2)
                      else
                        option_map (cons (TLit (ascii_of_nat (octal_value d1))))
                                   (parse_template fuel r1)
                  | EmptyString => Some [TLit (ascii_of_nat (octal_value d1))]
                  end
                else option_map (cons (TLit (ascii_of_nat 0)))
                                (parse_template fuel r)
            | EmptyString => Some [TLit (ascii_of_nat 0)]
            end
          else if is_digit c then
            match r with
            | String d1 (String d2 r2) =>
                if is_octdigit c && is_octdigit d1 && is_octdigit d2 then
                  let v := (octal_value c * 64 + octal_value d1 * 8
                            + octal_value d2)%nat in
                  if (255 <? v)%nat then None    (* outside 0-0o377 *)
                  else option_map (cons (TLit (ascii_of_nat v)))
                                  (parse_template fuel r2)
                else None                        (* invalid group reference *)
            | _ => None                          (* invalid group reference *)
            end
          else
            match escape_char c with
            | Some e => option_map (cons (TLit e)) (parse_template fuel r)
            | None =>
                if is_ascii_letter c then None   (* bad escape *)
                else option_map (fun t => TLit "\" :: TLit c :: t)
                                (parse_template fuel r)
            end
      | String c r => option_map (cons (TLit c)) (parse_template fuel r)
      end
  end.

(** The template is expanded once per call of [sub] when the text has a
    match; a pattern without groups has the same expansion at every match
    except for references to the match itself. *)
Fixpoint expand (t : list titem) (whole : string) : string :=
  match t with
  | [] => EmptyString
  | TLit c :: t' => String c (expand t' whole)
  | TWhole :: t' => whole ++ expand t' whole
  end.

Definition template (repl : string) : option (list titem) :=
  parse_template (S (String.length repl)) repl.

(** The template of a replacement without backslash: its characters. *)
Fixpoint plain (repl : string) : list titem :=
  match repl with
  | EmptyString => []
  | String c r => TLit c :: plain r
  end.

(** *** Literal patterns

    The patterns made of ordinary characters and of backslash-escaped
    characters that are neither letters nor digits: the image of
    [re.escape] and the patterns without metacharacters, the empty pattern
    among them.  [parse_literal] answers [None] outside this fragment,
    where this instance of [engine] does not describe [re]. *)
Definition is_meta (c : ascii) : bool := has_char c ".^$*+?{}[]\|()".

Fixpoint parse_literal (s : string) : option string :=
  match s with
  | EmptyString => Some EmptyString
  | String "\" EmptyString => None
  | String "\" (String c r) =>
      if is_ascii_letter c || is_digit c then None
      else option_map (String c) (parse_literal r)
  | String c r =>
      if is_meta c then None else option_map (String c) (parse_literal r)
  end.

(** A compiled literal pattern: its characters and the IGNORECASE flag. *)
Record literal : Type := Literal { lit_chars : string; lit_icase : bool }.

Definition char_eq (icase : bool) (a b : ascii) : bool :=
  if icase then Ascii.eqb (lower_char a) (lower_char b) else Ascii.eqb a b.

Fixpoint lit_search (p : literal) (s : string) : bool :=
  starts_with (char_eq (lit_icase p)) (lit_chars p) s ||
  match s with
  | EmptyString => false
  | String _ r => lit_search p r
  end.

(** [rx.sub(repl, s)] scans [s] from the left; at each match the
    expansion of the template takes the place of the matched text. *)
Fixpoint lit_sub_scan (p : literal) (t : list titem) (skip : nat)
         (s : string) : string :=
  match s with
  | EmptyString =>
      match skip, lit_chars p with
      | O, EmptyString => expand t ""
      | _, _ => EmptyString
      end
  | String c r =>
      match skip with
      | S k => lit_sub_scan p t k r
      | O =>
          match lit_chars p with
          | EmptyString => expand t "" ++ String c (lit_sub_scan p t O r)
          | String _ old' =>
              if starts_with (char_eq (lit_icase p)) (lit_chars p) s
              then expand t (take (String.length (lit_chars p)) s)
                   ++ lit_sub_scan p t (String.length old') r
              else String c (lit_sub_scan p t O r)
          end
      end
  end.

Definition lit_sub (p : literal) (repl s : string) : option string :=
  match template repl with
  | Some t => Some (lit_sub_scan p t O s)
  | None => None
  end.

Definition literal_re : engine :=
  {| pattern := literal;
     compile := fun pat icase =>
       option_map (fun cs => Literal cs icase) (parse_literal pat);
     search := lit_search;
     sub := lit_sub |}.

End PyRe.

(** ** [file_renamer.py] *)

Module Renamer.
Import PyRe.

(** (src, dst, is_dir), the tuples of [plan_changes]. *)
Definition change : Type := string * string * bool.

(** One item of [os.walk]: (dirpath, dirnames, filenames). *)
Definition walk_item : Type := string * list string * list string.

(** *** Matcher *)

(** [name_matches], lines 175-181. *)
Definition name_matches (name term : string) (case_sensitive : bool) : bool :=
  if String.eqb term "" then false
  else if case_sensitive then contains term name
  else contains (lower term) (lower name).

(** [ci_replace], lines 184-191.  The case-insensitive branch compiles
    [re.escape(find_term)], a literal pattern, with [re.IGNORECASE] and
    calls [pattern.sub(replace_with, text)]: [replace_with] is a
    replacement template there. *)
Definition ci_replace (text find_term replace_with : string)
           (case_sensitive : bool) : outcome string :=
  if String.eqb find_term "" then Done text
  else if case_sensitive then Done (replace find_term replace_with text)
  else
    match compile literal_re (escape find_term) true with
    | None => Raised ReError
    | Some pattern =>
        match sub literal_re pattern replace_with text with
        | Some new_text => Done new_text
        | None => Raised ReError
        end
    end.

(** The replacement the specification asks of the matcher in literal
    mode: every occurrence of the find term in the name, located after
    lower-casing both when the match is case-insensitive, gives way to the
    replacement string as it is. *)
Definition replaced_literally (name find_term replace_with : string)
           (case_sensitive : bool) : string :=
  let fold := fun c => if case_sensitive then c else lower_char c in
  if String.eqb find_term "" then name
  else replace_scan (fun a b => Ascii.eqb (fold a) (fold b))
                    find_term replace_with O name.

Section Planning.

(** Python's [re] on the user's patterns, [os.path.exists] and
    [os.walk] at the time of planning. *)
Variable re : engine.
Variable path_exists : string -> bool.
Variable os_walk : string -> list walk_item.

(** [regex_replace_name], lines 194-205. *)
Definition regex_replace_name (name pat repl : string)
           (case_sensitive : bool) : outcome (bool * string) :=
  let flags := negb case_sensitive in
  match compile re pat flags with
  | None => Raised ValueError
  | Some rx =>
      let matched := search re rx name in
      if negb matched then Done (false, name)
      else
        match sub re rx repl name with
        | Some new_name => Done (true, new_name)
        | None => Raised ReError
        end
  end.

(** *** Tree walker *)

(** [iter_targets], lines 292-299. *)
Definition iter_targets (root : string) (include_dirs : bool)
  : list (string * bool) :=
  flat_map
    (fun item : walk_item =>
       let '(dirpath, dirnames, filenames) := item in
       ((if include_dirs
         then map (fun d => (join dirpath d, true)) dirnames
         else [])
        ++ map (fun f => (join dirpath f, false)) filenames)%list)
    (os_walk root).

(** [eligible], lines 302-308. *)
Definition eligible (path : string) (is_dir : bool) (exts : list string)
  : bool :=
  if is_dir then true
  else
    match exts with
    | [] => true
    | _ => let '(_, ext) := splitext path in in_list (lower ext) exts
    end.

(** [find_matches], lines 235-253. *)
Definition find_matches (root find_term : string)
           (case_sensitive include_dirs : bool) (exts : list string)
           (regex : bool) : list (string * bool) :=
  filter
    (fun target : string * bool =>
       let '(path, is_dir) := target in
       if negb (eligible path is_dir exts) then false
       else
         let name := basename path in
         if regex then
           let flags := negb case_sensitive in
           match compile re find_term flags with
           | Some rx => search re rx name
           | None => false        (* except re.error: continue *)
           end
         else name_matches name find_term case_sensitive)
    (iter_targets root include_dirs).

(** *** Collision resolver *)

(** The [while True] loop shared by the two resolvers: probe
    [candidate i], [candidate (i+1)], ... *)
Fixpoint probe (candidate : Z -> string) (fuel : nat) (i : Z)
  : outcome string :=
  match fuel with
  | O => OutOfFuel
  | S fuel' =>
      if negb (path_exists (candidate i)) then Done (candidate i)
      else probe candidate fuel' (i + 1)
  end.

(** [f"{root}({i}){ext}"] joined to [dirn], line 318. *)
Definition numbered (dst : string) (i : Z) : string :=
  let '(dirn, name) := split dst in
  let '(root, ext) := splitext name in
  join dirn (root ++ "(" ++ str_of_int i ++ ")" ++ ext).

(** [next_nonconflicting_path], lines 311-321. *)
Definition next_nonconflicting_path (fuel : nat) (dst : string)
  : outcome string :=
  if negb (path_exists dst) then Done dst
  else probe (numbered dst) fuel 1.

(** [f"{src}.bak({i})"], line 331. *)
Definition backup_numbered (src : string) (i : Z) : string :=
  src ++ ".bak(" ++ str_of_int i ++ ")".

(** [backup_nonconflicting_path], lines 324-334. *)
Definition backup_nonconflicting_path (fuel : nat) (src : string)
  : outcome string :=
  let cand := src ++ ".bak" in
  if negb (path_exists cand) then Done cand
  else probe (backup_numbered src) fuel 1.

(** *** Planner *)

Section Plan.
Variables (find_term replace_with : string).
Variables (case_sensitive : bool) (exts : list string) (regex : bool).

(** Lines 344-355 of [plan_changes]: the new name of [name], or
    [None] where the loop says [continue]. *)
Definition substituted (name : string) : outcome (option string) :=
  if regex then
    match regex_replace_name name find_term replace_with case_sensitive with
    | Raised ValueError => Done None
    | Raised e => Raised e
    | OutOfFuel => OutOfFuel
    | Done (matched, new_name) =>
        if negb matched then Done None else Done (Some new_name)
    end
  else if negb (name_matches name find_term case_sensitive) then Done None
  else
    new_name <- ci_replace name find_term replace_with case_sensitive ;;
    Done (Some new_name).

(** The body of the loop of [plan_changes], lines 341-363. *)
Definition plan_target (fuel : nat) (path : string) (is_dir : bool)
  : outcome (option change) :=
  if negb (eligible path is_dir exts) then Done None
  else
    let '(dirn, name) := split path in
    r <- substituted name ;;
    match r with
    | None => Done None
    | Some new_name =>
        if String.eqb new_name name then Done None
        else
          let dst := join dirn new_name in
          dst_final <- next_nonconflicting_path fuel dst ;;
          Done (Some (path, dst_final, is_dir))
    end.

Fixpoint plan_loop (fuel : nat) (targets : list (string * bool))
  : outcome (list change) :=
  match targets with
  | [] => Done []
  | (path, is_dir) :: rest =>
      r <- plan_target fuel path is_dir ;;
      changes <- plan_loop fuel rest ;;
      Done (match r with
            | Some c => c :: changes
            | None => changes
            end)
  end.
End Plan.

(** [plan_changes], lines 337-364. *)
Definition plan_changes (fuel : nat) (root find_term replace_with : string)
           (case_sensitive include_dirs : bool) (exts : list string)
           (regex : bool) : outcome (list change) :=
  plan_loop find_term replace_with case_sensitive exts regex fuel
            (iter_targets root include_dirs).

End Planning.

(** *** Approval loop *)

Inductive answer : Type := Yes | No | Quit.

(** The inner [while True] of lines 562-574: [input(...)] is read until
    the answer is one of y/yes, n/no, q.  [inputs] is what is left of
    standard input, line by line; the number of lines read is returned. *)
Fixpoint ask (inputs : list string) : outcome (answer * nat * list string) :=
  match inputs with
  | [] => Raised EOFError
  | line :: rest =>
      let resp := lower (strip line) in
      if String.eqb resp "y" || String.eqb resp "yes" then Done (Yes, 1%nat, rest)
      else if String.eqb resp "n" || String.eqb resp "no" then Done (No, 1%nat, rest)
      else if String.eqb resp "q" then Done (Quit, 1%nat, rest)
      else
        r <- ask rest ;;
        let '(a, n, rest') := r in Done (a, S n, rest')
  end.

(** The result of the approval loop: the approved changes [to_apply], the
    changes the user was prompted for (one entry per call of [input]),
    and the input left. *)
Record approval : Type := Approval {
  to_apply : list change;
  prompted : list change;
  unread : list string;
}.

(** Lines 558-575: the [for] loop over the planned changes.  The [break]
    of each branch leaves the inner [while True] only. *)
Fixpoint approve_loop (changes : list change) (inputs : list string)
  : outcome approval :=
  match changes with
  | [] => Done (Approval [] [] inputs)
  | c :: rest =>
      r <- ask inputs ;;
      let '(a, n, inputs') := r in
      more <- approve_loop rest inputs' ;;
      Done (Approval
              (match a with
               | Yes => c :: to_apply more
               | No | Quit => to_apply more
               end)
              (repeat c n ++ prompted more)%list
              (unread more))
  end.

(** *** Executor *)

Inductive os_error : Type :=
| FileNotFoundError
| PermissionError
| OtherError.

(** What the executor does, in order: the calls of [shutil.copy2] and
    [os.rename] and the records handed to [write_log_line] and
    [write_json_log]. *)
Inductive event : Type :=
| CallCopy2 (src dst : string)
| CallRename (src dst : string)
| LogDryRunBackup (src bk : string)
| LogDryRun (src dst : string)
| LogBackup (src bk : string)
| LogBackupFailed (src bk : string)
| LogRenamed (src dst : string)
| LogNotFound (src dst : string)
| LogPermission (src dst : string)
| LogError (src dst : string).

(** The terminal outcomes of an item as the trace shows them: a rename
    that succeeded, a dry-run, a failure (of the backup or of the
    rename). *)
Definition is_success (e : event) : bool :=
  match e with LogRenamed _ _ => true | _ => false end.

Definition is_dry_run (e : event) : bool :=
  match e with LogDryRun _ _ => true | _ => false end.

Definition is_failed (e : event) : bool :=
  match e with
  | LogBackupFailed _ _ | LogNotFound _ _ | LogPermission _ _
  | LogError _ _ => true
  | _ => false
  end.

Definition count_events (p : event -> bool) (tr : list event) : Z :=
  Z.of_nat (List.length (List.filter p tr)).

Record counters : Type := Counters {
  renamed : Z;
  skipped : Z;
  errors : Z;
}.

Record summary : Type := Summary {
  total_found : Z;
  sum_renamed : Z;
  sum_skipped : Z;
  sum_errors : Z;
}.

Section Execution.

(** The file system as the executor sees it. *)
Variable world : Type.
Variable exists_in : world -> string -> bool.
Variable copy2 : string -> string -> world -> world * option os_error.
Variable rename : string -> string -> world -> world * option os_error.

Record state : Type := State {
  fs : world;
  count : counters;
  trace : list event;
}.

(** The counters agree with the outcomes of the trace. *)
Definition counted (st : state) : Prop :=
  renamed (count st)
  = count_events is_success (trace st) + count_events is_dry_run (trace st) /\
  errors (count st) = count_events is_failed (trace st) /\
  skipped (count st) = 0.

Definition emit (evs : list event) (st : state) : state :=
  State (fs st) (count st) (trace st ++ evs)%list.

Definition add_renamed (st : state) : state :=
  let c := count st in
  State (fs st) (Counters (renamed c + 1) (skipped c) (errors c)) (trace st).

Definition add_error (st : state) : state :=
  let c := count st in
  State (fs st) (Counters (renamed c) (skipped c) (errors c + 1)) (trace st).

(** The body of the loop of lines 584-731. *)
Definition execute_one (fuel : nat) (dry_run backup : bool) (c : change)
           (st : state) : outcome state :=
  let '(src, dst, is_dir) := c in
  if dry_run then
    st <- (if backup && negb is_dir then
             bk <- backup_nonconflicting_path (exists_in (fs st)) fuel src ;;
             Done (emit [LogDryRunBackup src bk] st)
           else Done st) ;;
    Done (add_renamed (emit [LogDryRun src dst] st))
  else
    r <- (if backup && negb is_dir then
            bk_path <- backup_nonconflicting_path (exists_in (fs st)) fuel src ;;
            let '(w, res) := copy2 src bk_path (fs st) in
            let st := State w (count st) (trace st ++ [CallCopy2 src bk_path])%list in
            match res with
            | None => Done (emit [LogBackup src bk_path] st, true)
            | Some _ =>
                Done (add_error (emit [LogBackupFailed src bk_path] st), false)
            end
          else Done (st, true)) ;;
    let '(st, go_on) := r in
    if negb go_on then Done st          (* errors += 1; continue *)
    else
      let '(w, res) := rename src dst (fs st) in
      let st := State w (count st) (trace st ++ [CallRename src dst])%list in
      match res with
      | None => Done (add_renamed (emit [LogRenamed src dst] st))
      | Some FileNotFoundError => Done (add_error (emit [LogNotFound src dst] st))
      | Some PermissionError => Done (add_error (emit [LogPermission src dst] st))
      | Some OtherError => Done (add_error (emit [LogError src dst] st))
      end.

Fixpoint execute (fuel : nat) (dry_run backup : bool) (cs : list change)
         (st : state) : outcome state :=
  match cs with
  | [] => Done st
  | c :: rest =>
      st' <- execute_one fuel dry_run backup c st ;;
      execute fuel dry_run backup rest st'
  end.

(** [main] from line 547 on, given the planned [changes]: [None] is the
    early return of "Nothing to do.", otherwise the summary that is
    printed, with the final state and the outcome of the approvals. *)
Definition main_apply (fuel : nat) (approve_each dry_run backup : bool)
           (changes : list change) (inputs : list string) (w : world)
  : outcome (option (summary * state * approval)) :=
  let total_found := Z.of_nat (List.length changes) in
  if total_found =? 0 then Done None
  else
    ap <- (if approve_each then approve_loop changes inputs
           else Done (Approval changes [] inputs)) ;;
    st <- execute fuel dry_run backup (to_apply ap)
                  (State w (Counters 0 0 0) []) ;;
    let c := count st in
    let skipped := if approve_each
                   then total_found - renamed c - errors c
                   else skipped c in
    Done (Some (Summary total_found (renamed c) skipped (errors c), st, ap)).

End Execution.

End Renamer.

(** ** A small tree

    The tree of the tests ([create_demo_tree]) under the root [r], as
    [os.walk] and [os.path.exists] see it, and a file system for the
    executor: the set of the paths that exist, where [shutil.copy2] and
    [os.rename] fail when the source is missing or the destination lies in
    a directory that does not exist or is read-only. *)

Module Demo.
Import PyRe Renamer.

Definition walk (root : string) : list walk_item :=
  [ (root, ["Reports"],
     ["Report-123.txt"; "Report-456.pdf"; "draft_note.txt"]);
    (join root "Reports", [], ["Report-789.txt"]) ].

Definition paths : list string :=
  [ "r"; "r/Reports"; "r/Report-123.txt"; "r/Report-456.pdf";
    "r/draft_note.txt"; "r/Reports/Report-789.txt" ].

Definition path_exists (p : string) : bool := in_list p paths.

(** The file system of the executor: the existing paths and the
    directories that cannot be written to. *)
Record world : Type := World {
  existing : list string;
  read_only : list string;
}.

Definition exists_in (w : world) (p : string) : bool :=
  in_list p (existing w).

Definition copy2 (src dst : string) (w : world) : world * option os_error :=
  if negb (in_list src (existing w)) then (w, Some FileNotFoundError)
  else if in_list (dirname dst) (read_only w) then (w, Some PermissionError)
  else (World (dst :: existing w) (read_only w), None).

Definition rename (src dst : string) (w : world) : world * option os_error :=
  if negb (in_list src (existing w)) then (w, Some FileNotFoundError)
  else if in_list (dirname dst) (read_only w) then (w, Some PermissionError)
  else (World (dst :: List.filter (fun p => negb (String.eqb p src)) (existing w))
              (read_only w), None).

(** A directory where [a.txt] and its first candidates are taken. *)
Definition crowded (p : string) : bool :=
  in_list p [ "d/a.txt"; "d/a(1).txt"; "d/a(3).txt";
              "d/a.txt.bak"; "d/a.txt.bak(1)"; "d/a.txt.bak(2)" ].

Definition initial : world := World paths [].
Definition locked : world := World paths ["r"].

(** The plan for find=[Report], replace=[Rpt], case-insensitive. *)
Definition changes : list change :=
  [ ("r/Report-123.txt", "r/Rpt-123.txt", false);
    ("r/Report-456.pdf", "r/Rpt-456.pdf", false);
    ("r/Reports/Report-789.txt", "r/Reports/Rpt-789.txt", false) ].

End Demo.

(** ** [file_renamer.py]: inputs and log files *)

Module RenamerIO.
Import Renamer.

(** The two quote characters of [strip_quotes]. *)
Definition dquote : ascii := ascii_of_nat 34.
Definition squote : ascii := "'"%char.

(** [s[0]] and [s[-1]] of a non-empty string, [s[1:-1]]. *)
Definition first_char (s : string) : option ascii := String.get 0 s.

Definition last_char (s : string) : option ascii :=
  String.get (String.length s - 1) s.

Definition inner (s : string) : string :=
  drop 1 (take (String.length s - 1) s).

Definition is_char (c : ascii) (o : option ascii) : bool :=
  match o with
  | Some a => Ascii.eqb a c
  | None => false
  end.

(** [strip_quotes], lines 43-49. *)
Definition strip_quotes (s : option string) : option string :=
  match s with
  | None => None
  | Some s =>
      let s := strip s in
      if (2 <=? String.length s)%nat
         && ((is_char dquote (first_char s) && is_char dquote (last_char s))
             || (is_char squote (first_char s) && is_char squote (last_char s)))
      then Some (inner s)
      else Some s
  end.

(** [s.split(c)] for a separator of one character. *)
Fixpoint split_on (c : ascii) (s : string) : list string :=
  match s with
  | EmptyString => [EmptyString]
  | String a r =>
      if Ascii.eqb a c then EmptyString :: split_on c r
      else
        match split_on c r with
        | h :: t => String a h :: t
        | [] => [String a EmptyString]
        end
  end.

(** [normalize_exts], lines 163-172. *)
Definition normalize_exts (ext_str : string) : list string :=
  if String.eqb ext_str "" then []
  else
    let parts :=
      map strip
          (List.filter (fun e => negb (String.eqb (strip e) ""))
                       (split_on "," ext_str)) in
    map (fun e => lower (if startswith "." e then e else String "." e)) parts.

(** The answers [confirm_plan] accepts. *)
Definition plan_answers : list string := ["y"; "yes"; "n"; "no"; "a"; "c"].

(** The [while True] of [confirm_plan], lines 137-141: the first line of
    input that is an accepted answer, and the input left. *)
Fixpoint confirm_plan (inputs : list string) : outcome (string * list string) :=
  match inputs with
  | [] => Raised EOFError
  | line :: rest =>
      let ans := lower (strip line) in
      if in_list ans plan_answers then Done (ans, rest)
      else confirm_plan rest
  end.

(** [line.rstrip("\n") + "\n"], what [write_log_line] writes (line 376). *)
Definition newline : ascii := ascii_of_nat 10.

Definition log_text (line : string) : string :=
  rstrip_char newline line ++ String newline "".

Section Logs.

(** The file system: [os.path.exists], and [open(path, 'a')] followed by a
    write of some text, which either raises or leaves a new state. *)
Variable world : Type.
Variable exists_in : world -> string -> bool.
Variable append_to : string -> string -> world -> world * bool.

(** The candidates of lines 224 and 271: [f"{root}({i}){ext}"] joined to
    [base_dir]. *)
Definition log_trial (base_dir base_name : string) (i : Z) : string :=
  let '(root, ext) := splitext base_name in
  join base_dir (root ++ "(" ++ str_of_int i ++ ")" ++ ext).

(** [open(path, 'a')] with nothing written: the path on success, [None]
    when the [open] raises. *)
Definition create_log (path : string) (w : world) : world * option string :=
  let '(w', ok) := append_to path "" w in
  (w', if ok then Some path else None).

Fixpoint log_probe (base_dir base_name : string) (fuel : nat) (i : Z)
         (w : world) : outcome (world * option string) :=
  match fuel with
  | O => OutOfFuel
  | S fuel' =>
      let trial := log_trial base_dir base_name i in
      if negb (exists_in w trial) then Done (create_log trial w)
      else log_probe base_dir base_name fuel' (i + 1) w
  end.

(** The body shared by [ensure_log_file] (lines 208-232) and
    [ensure_json_log_file] (lines 256-279), which differ in the extension
    of [base_name] only.  [date_str] is the date of the day, formatted. *)
Definition ensure_dated_log (ext : string) (fuel : nat)
           (date_str base_dir : string) (w : world)
  : outcome (world * option string) :=
  let base_name := "renamed." ++ date_str ++ ext in
  let path := join base_dir base_name in
  if negb (exists_in w path) then Done (create_log path w)
  else log_probe base_dir base_name fuel 1 w.

Definition ensure_log_file := ensure_dated_log ".txt".
Definition ensure_json_log_file := ensure_dated_log ".jsonl".

(** [write_log_line], lines 371-378: nothing without a log path, and a
    failure of the write is swallowed. *)
Definition write_log_line (log_path : option string) (line : string)
           (w : world) : world :=
  match log_path with
  | None => w
  | Some p => if String.eqb p "" then w else fst (append_to p (log_text line) w)
  end.

End Logs.

(** The lines of input that the approval loop takes for a yes. *)
Definition is_yes (line : string) : bool :=
  let resp := lower (strip line) in
  String.eqb resp "y" || String.eqb resp "yes".

(** A character that lower-casing neither makes nor removes. *)
Definition caseless (c : ascii) : Prop :=
  forall a, Ascii.eqb (lower_char a) c = Ascii.eqb a c.

(** The events of the executor that are calls of the operating system. *)
Definition is_call (e : event) : bool :=
  match e with
  | CallCopy2 _ _ | CallRename _ _ => true
  | _ => false
  end.

(** The events one item can add to the trace, by the flags of the run:
    lines 586-731. *)
Inductive item_events (dry_run backup : bool) : change -> list event -> Prop :=
| ItemDryRunBackup src dst bk :
    dry_run = true -> backup = true ->
    item_events dry_run backup (src, dst, false)
                [LogDryRunBackup src bk; LogDryRun src dst]
| ItemDryRun src dst is_dir :
    dry_run = true -> backup && negb is_dir = false ->
    item_events dry_run backup (src, dst, is_dir) [LogDryRun src dst]
| ItemBackupFailed src dst bk :
    dry_run = false -> backup = true ->
    item_events dry_run backup (src, dst, false)
                [CallCopy2 src bk; LogBackupFailed src bk]
| ItemBackupRename src dst bk last :
    dry_run = false -> backup = true ->
    In last [LogRenamed src dst; LogNotFound src dst; LogPermission src dst;
             LogError src dst] ->
    item_events dry_run backup (src, dst, false)
                [CallCopy2 src bk; LogBackup src bk; CallRename src dst; last]
| ItemRename src dst is_dir last :
    dry_run = false -> backup && negb is_dir = false ->
    In last [LogRenamed src dst; LogNotFound src dst; LogPermission src dst;
             LogError src dst] ->
    item_events dry_run backup (src, dst, is_dir) [CallRename src dst; last].

(** [xs] is [ys] with some elements left out, the order kept. *)
Inductive subsequence {A : Type} : list A -> list A -> Prop :=
| SubNil : subsequence [] []
| SubSkip x xs ys : subsequence xs ys -> subsequence xs (x :: ys)
| SubKeep x xs ys : subsequence xs ys -> subsequence (x :: xs) (x :: ys).

(** The strings on which the model of [str.lower] and of [re.IGNORECASE]
    is that of Python: those of characters below 128. *)
Definition ascii_char (c : ascii) : bool := (nat_of_ascii c <? 128)%nat.

Fixpoint is_ascii (s : string) : bool :=
  match s with
  | EmptyString => true
  | String c r => ascii_char c && is_ascii r
  end.

(** [prompt_with_default], lines 114-119: one line of input is read. *)
Definition prompt_with_default (default : option string)
           (inputs : list string) : outcome (string * list string) :=
  match inputs with
  | [] => Raised EOFError
  | line :: rest =>
      let resp := strip line in
      match default with
      | None => Done (resp, rest)
      | Some d =>
          if String.eqb d "" then Done (resp, rest)
          else Done (if String.eqb resp "" then d else resp, rest)
      end
  end.

(** Line 148 of [gather_inputs_interactive]: the find term is asked again,
    [find_term = strip_quotes(prompt_with_default("Enter FIND term",
    prev.get("find")))]. *)
Definition reprompt_find_term (prev_find : option string)
           (inputs : list string) : outcome (option string * list string) :=
  r <- prompt_with_default prev_find inputs ;;
  Done (strip_quotes (Some (fst r)), snd r).

(** [old] occurs somewhere in [s], the characters compared with [eqc]. *)
Fixpoint occurs (eqc : ascii -> ascii -> bool) (old s : string) : bool :=
  starts_with eqc old s ||
  match s with
  | EmptyString => false
  | String _ r => occurs eqc old r
  end.

(** "All occurrences of [old] replaced by [new]": the text is cut at the
    first occurrence of [old], the part before it is kept, the occurrence
    gives way to [new], and the rest is treated in the same way; a text
    without occurrence is kept. *)
Inductive replaced (eqc : ascii -> ascii -> bool) (old new : string)
  : string -> string -> Prop :=
| ReplacedNone s :
    occurs eqc old s = false -> replaced eqc old new s s
| ReplacedFirst before hit rest r :
    String.length hit = String.length old ->
    starts_with eqc old hit = true ->
    (forall k, (k < String.length before)%nat ->
               starts_with eqc old (drop k (before ++ hit ++ rest)) = false) ->
    replaced eqc old new rest r ->
    replaced eqc old new (before ++ hit ++ rest) (before ++ new ++ r).

End RenamerIO.

(** ** The executor of the specification

    The state machine of one operation as the specification gives it
    (4.5), read on the results of the operating system calls:
    PLANNED, then DRY_RUN in a dry run; otherwise the backup if requested
    (non-directories only), FAILED when it fails; then the rename attempt,
    SUCCESS or FAILED. *)

Module ExecutorSpec.
Import Renamer.

Inductive status : Type := Applied | DryRun | Failed.

Definition is_status (a b : status) : bool :=
  match a, b with
  | Applied, Applied | DryRun, DryRun | Failed, Failed => true
  | _, _ => false
  end.

Definition count_status (a : status) (outs : list status) : Z :=
  Z.of_nat (List.length (List.filter (is_status a) outs)).

Section Outcomes.
Variable world : Type.
Variable exists_in : world -> string -> bool.
Variable copy2 : string -> string -> world -> world * option os_error.
Variable rename : string -> string -> world -> world * option os_error.

Definition rename_attempt (src dst : string) (w : world) : world * status :=
  let '(w', res) := rename src dst w in
  (w', match res with None => Applied | Some _ => Failed end).

Definition outcome_of (fuel : nat) (dry_run backup : bool) (c : change)
           (w : world) : outcome (world * status) :=
  let '(src, dst, is_dir) := c in
  if dry_run then
    if backup && negb is_dir then
      _ <- backup_nonconflicting_path (exists_in w) fuel src ;;
      Done (w, DryRun)
    else Done (w, DryRun)
  else if backup && negb is_dir then
    bk <- backup_nonconflicting_path (exists_in w) fuel src ;;
    match copy2 src bk w with
    | (w1, Some _) => Done (w1, Failed)
    | (w1, None) => Done (rename_attempt src dst w1)
    end
  else Done (rename_attempt src dst w).

Fixpoint outcomes (fuel : nat) (dry_run backup : bool) (cs : list change)
         (w : world) : outcome (world * list status) :=
  match cs with
  | [] => Done (w, [])
  | c :: rest =>
      r <- outcome_of fuel dry_run backup c w ;;
      more <- outcomes fuel dry_run backup rest (fst r) ;;
      Done (fst more, snd r :: snd more)
  end.

End Outcomes.

End ExecutorSpec.

(** A file system for the log files: the existing paths, and a directory
    where nothing can be created. *)
Module DemoLogs.

Record world : Type := World {
  existing : list string;
  no_write : string;
}.

Definition exists_in (w : world) (p : string) : bool := in_list p (existing w).

Definition append_to (p text : string) (w : world) : world * bool :=
  if String.eqb (dirname p) (no_write w) then (w, false)
  else (World (p :: existing w) (no_write w), true).

Definition second_run : world :=
  World ["logs/renamed.11.04.2026.txt"; "logs/renamed.11.04.2026(1).txt"] "ro".

End DemoLogs.

(** * Properties *)

(** ** Strings and paths *)

Module PyStrFacts.
Import PyStr.

Lemma append_assoc (a b c : string) : (a ++ b) ++ c = a ++ (b ++ c).
Proof. induction a as [|x a IH]; simpl; [reflexivity | now rewrite IH]. Qed.

Lemma length_append (a b : string) :
  String.length (a ++ b) = (String.length a + String.length b)%nat.
Proof. induction a as [|x a IH]; simpl; [reflexivity | now rewrite IH]. Qed.

Lemma has_char_append (c : ascii) (a b : string) :
  has_char c (a ++ b) = has_char c a || has_char c b.
Proof.
  induction a as [|x a IH]; simpl; [reflexivity|].
  now rewrite IH, orb_assoc.
Qed.

Lemma take_append_exact (a b : string) : take (String.length a) (a ++ b) = a.
Proof. induction a as [|x a IH]; simpl; [now destruct b | now rewrite IH]. Qed.

Lemma drop_append_exact (a b : string) : drop (String.length a) (a ++ b) = b.
Proof. induction a as [|x a IH]; simpl; [reflexivity | exact IH]. Qed.

Lemma take_drop (n : nat) (s : string) : take n s ++ drop n s = s.
Proof.
  revert s; induction n as [|n IH]; intros [|a s]; simpl; try reflexivity.
  now rewrite IH.
Qed.

Lemma has_char_take (c : ascii) (n : nat) (s : string) :
  has_char c s = false -> has_char c (take n s) = false.
Proof.
  intros H. rewrite <- (take_drop n s), has_char_append in H.
  now apply orb_false_elim in H.
Qed.

Lemma has_char_drop (c : ascii) (n : nat) (s : string) :
  has_char c s = false -> has_char c (drop n s) = false.
Proof.
  intros H. rewrite <- (take_drop n s), has_char_append in H.
  now apply orb_false_elim in H.
Qed.

(** [rfind] *)

Lemma rfind_from_absent (c : ascii) (s : string) (i last : Z) :
  has_char c s = false -> rfind_from c s i last = last.
Proof.
  revert i last; induction s as [|a s IH]; intros i last H; simpl in *.
  - reflexivity.
  - apply orb_false_elim in H as [Ha Hs]. rewrite Ha. now apply IH.
Qed.

Lemma rfind_from_last (c : ascii) (a b : string) (i last : Z) :
  has_char c b = false ->
  rfind_from c (a ++ String c b) i last = i + Z.of_nat (String.length a).
Proof.
  intros Hb. revert i last; induction a as [|x a IH]; intros i last.
  - cbn [append rfind_from String.length]. rewrite Ascii.eqb_refl.
    rewrite rfind_from_absent by exact Hb. simpl; lia.
  - cbn [append rfind_from String.length]. rewrite IH. lia.
Qed.

(** A string either has no [c], or is cut at its last [c]. *)
Lemma last_occurrence (c : ascii) (s : string) :
  has_char c s = false \/
  exists a b, s = a ++ String c b /\ has_char c b = false.
Proof.
  induction s as [|x s IH].
  - now left.
  - destruct IH as [H | (a & b & -> & Hb)].
    + destruct (Ascii.eqb x c) eqn:E.
      * right. exists "", s. apply Ascii.eqb_eq in E. now subst.
      * left. simpl. now rewrite E.
    + right. now exists (String x a), b.
Qed.

Lemma rfind_absent (c : ascii) (s : string) :
  has_char c s = false -> rfind c s = -1.
Proof. apply rfind_from_absent. Qed.

Lemma rfind_last (c : ascii) (a b : string) :
  has_char c b = false ->
  rfind c (a ++ String c b) = Z.of_nat (String.length a).
Proof. intros H. unfold rfind. now rewrite rfind_from_last. Qed.

(** [rstrip], [endswith] and [c * len(s)] *)

Lemma ends_with_char_snoc (c : ascii) (s : string) :
  ends_with_char c s = true -> exists a, s = a ++ String c "".
Proof.
  induction s as [|x s IH]; simpl; [discriminate|].
  destruct s as [|y s].
  - intros E. apply Ascii.eqb_eq in E. subst. now exists "".
  - intros E. destruct (IH E) as [a Ha]. exists (String x a). simpl.
    now rewrite <- Ha.
Qed.

Lemma all_char_ends_with (c : ascii) (s : string) :
  all_char c s = true -> s <> "" -> ends_with_char c s = true.
Proof.
  induction s as [|x s IH]; simpl; [congruence|].
  intros H _. apply andb_prop in H as [Hx Hs].
  destruct s as [|y s]; [exact Hx|]. apply IH; [exact Hs | discriminate].
Qed.

Lemma all_char_append (c : ascii) (a b : string) :
  all_char c (a ++ b) = all_char c a && all_char c b.
Proof.
  induction a as [|x a IH]; simpl; [reflexivity|].
  now rewrite IH, andb_assoc.
Qed.

Lemma rstrip_char_keeps (c : ascii) (s : string) :
  ends_with_char c s = false -> rstrip_char c s = s.
Proof.
  induction s as [|x s IH]; simpl; [reflexivity|].
  destruct s as [|y s].
  - intros ->. reflexivity.
  - intros H. rewrite (IH H). reflexivity.
Qed.

Lemma rstrip_char_snoc (c : ascii) (s : string) :
  rstrip_char c (s ++ String c "") = rstrip_char c s.
Proof.
  induction s as [|x s IH]; simpl.
  - now rewrite Ascii.eqb_refl.
  - now rewrite IH.
Qed.

Lemma rstrip_char_no_end (c : ascii) (s : string) :
  ends_with_char c (rstrip_char c s) = false.
Proof.
  induction s as [|x s IH]; simpl; [reflexivity|].
  destruct (rstrip_char c s) as [|y r] eqn:E.
  - destruct (Ascii.eqb x c) eqn:Ex; simpl; [reflexivity | exact Ex].
  - exact IH.
Qed.

Lemma starts_with_sep_free (c : ascii) (s : string) :
  has_char c s = false -> startswith (String c "") s = false.
Proof.
  destruct s as [|x s]; simpl; [reflexivity|].
  intros H. apply orb_false_elim in H as [H _].
  unfold startswith; simpl. rewrite Ascii.eqb_sym, H. reflexivity.
Qed.

(** [str(i)] is made of digits and a sign: it has no separator. *)
Lemma string_of_uint_no_slash (d : Decimal.uint) :
  has_char "/" (NilEmpty.string_of_uint d) = false.
Proof. induction d; simpl; auto. Qed.

Lemma str_of_int_no_slash (i : Z) : has_char "/" (str_of_int i) = false.
Proof.
  unfold str_of_int, NilZero.string_of_int, NilZero.string_of_uint.
  destruct (Z.to_int i) as [d|d]; destruct d; simpl;
    try reflexivity; apply string_of_uint_no_slash.
Qed.

End PyStrFacts.

Module PosixPathFacts.
Import PyStr PosixPath PyStrFacts.

Lemma split_no_sep (p : string) :
  has_char sep p = false -> split p = ("", p).
Proof.
  intros H. unfold split. rewrite rfind_absent by exact H. reflexivity.
Qed.

Lemma split_cut (a b : string) :
  has_char sep b = false ->
  split (a ++ String sep b) =
  (let head := a ++ String sep "" in
   if negb (all_char sep head) then rstrip_char sep head else head, b).
Proof.
  intros H. unfold split. rewrite rfind_last by exact H.
  unfold slice_to, slice_from.
  replace (Z.to_nat (Z.of_nat (String.length a) + 1))
    with (String.length (a ++ String sep "")) by (rewrite length_append; simpl; lia).
  replace (a ++ String sep b) with ((a ++ String sep "") ++ b)
    by (rewrite append_assoc; reflexivity).
  rewrite take_append_exact, drop_append_exact.
  cbv zeta. destruct (a ++ String sep "") eqn:E.
  - destruct a; discriminate.
  - reflexivity.
Qed.

Lemma split_tail_no_sep (p : string) : has_char sep (snd (split p)) = false.
Proof.
  destruct (last_occurrence sep p) as [H | (a & b & -> & Hb)].
  - now rewrite split_no_sep.
  - now rewrite split_cut.
Qed.

Lemma split_head_is_head (p : string) : is_head (fst (split p)).
Proof.
  destruct (last_occurrence sep p) as [H | (a & b & -> & Hb)].
  - rewrite split_no_sep by exact H. now right.
  - rewrite split_cut by exact Hb. cbn [fst].
    destruct (all_char sep (a ++ String sep "")) eqn:E; cbn [negb].
    + now left.
    + right. apply rstrip_char_no_end.
Qed.

Lemma basename_split (p : string) : basename p = snd (split p).
Proof. reflexivity. Qed.

Lemma join_no_sep (d n : string) :
  has_char sep n = false ->
  join d n = if String.eqb d "" || ends_with_char sep d then d ++ n
             else d ++ String sep n.
Proof.
  intros H. unfold join.
  pose proof (starts_with_sep_free sep n H) as E. unfold sep in E.
  now rewrite E.
Qed.

(** Joining a head and a name without separator, then splitting, gives
    them back. *)
Lemma split_join (d n : string) :
  is_head d -> has_char sep n = false -> split (join d n) = (d, n).
Proof.
  intros Hd Hn. rewrite join_no_sep by exact Hn.
  destruct (String.eqb_spec d "") as [-> | Hne]; cbn [orb].
  - simpl. now apply split_no_sep.
  - destruct (ends_with_char sep d) eqn:E.
    + destruct Hd as [Hall | Hend]; [|congruence].
      destruct (ends_with_char_snoc _ _ E) as [a ->].
      rewrite append_assoc. cbn [append].
      rewrite split_cut by exact Hn. cbv zeta. now rewrite Hall.
    + rewrite split_cut by exact Hn. cbv zeta.
      assert (all_char sep (d ++ String sep "") = false) as ->.
      { rewrite all_char_append.
        destruct (all_char sep d) eqn:A; [|reflexivity].
        now rewrite (all_char_ends_with _ _ A Hne) in E. }
      cbn [negb]. now rewrite rstrip_char_snoc, rstrip_char_keeps.
Qed.

Lemma dirname_join (d n : string) :
  is_head d -> has_char sep n = false -> dirname (join d n) = d.
Proof. intros. unfold dirname. now rewrite split_join. Qed.

(** The two halves of [splitext] are slices of the name. *)
Lemma splitext_no_sep (name : string) :
  has_char sep name = false ->
  has_char sep (fst (splitext name)) = false /\
  has_char sep (snd (splitext name)) = false.
Proof.
  intros H. unfold splitext.
  destruct (_ && _); cbn [fst snd].
  - split; [now apply has_char_take | now apply has_char_drop].
  - now split.
Qed.

End PosixPathFacts.

(** ** The matcher *)

Module MatcherFacts.
Import PyStr PyStrFacts PyRe Renamer.

(** [re.escape] yields a literal pattern for the escaped text. *)
Lemma parse_literal_escape (s : string) : parse_literal (escape s) = Some s.
Proof.
  induction s as [|c s IH]; [reflexivity|].
  cbn [escape]. destruct (is_special c) eqn:E.
  - cbn [parse_literal].
    assert (is_ascii_letter c || is_digit c = false) as ->.
    { unfold is_special, special_chars in E.
      destruct c as [[] [] [] [] [] [] [] []]; try reflexivity;
        vm_compute in E; discriminate. }
    destruct (escape s) eqn:Es; rewrite IH; reflexivity.
  - assert (is_meta c = false) as Hm.
    { unfold is_special, special_chars in E.
      destruct c as [[] [] [] [] [] [] [] []]; try reflexivity;
        vm_compute in E; discriminate. }
    assert (c <> "\"%char) as Hb.
    { intros ->. vm_compute in E. discriminate. }
    cbn [parse_literal].
    destruct c as [[] [] [] [] [] [] [] []];
      try (exfalso; apply Hb; reflexivity);
      rewrite ?Hm; rewrite IH; reflexivity.
Qed.

Lemma compile_escape (s : string) (icase : bool) :
  compile literal_re (escape s) icase = Some (Literal s icase).
Proof. cbn. now rewrite parse_literal_escape. Qed.

(** [ci_replace] in terms of the template: a [re.error] can only come
    from the replacement string. *)
Lemma ci_replace_insensitive (text find_term replace_with : string) :
  find_term <> "" ->
  ci_replace text find_term replace_with false =
  match template replace_with with
  | Some t => Done (lit_sub_scan (Literal find_term true) t O text)
  | None => Raised ReError
  end.
Proof.
  intros H. unfold ci_replace.
  destruct (String.eqb_spec find_term "") as [|_]; [contradiction|].
  rewrite compile_escape. cbn [sub literal_re]. unfold lit_sub.
  destruct (template replace_with); reflexivity.
Qed.

(** A replacement without backslash is its own template. *)
Lemma parse_template_plain (repl : string) (fuel : nat) :
  has_char "\" repl = false -> (String.length repl < fuel)%nat ->
  parse_template fuel repl = Some (plain repl).
Proof.
  revert fuel; induction repl as [|c r IH]; intros fuel H Hf.
  - destruct fuel; [inversion Hf | reflexivity].
  - destruct fuel as [|fuel]; [inversion Hf|].
    cbn [has_char] in H. apply orb_false_elim in H as [Hc Hr].
    cbn [String.length] in Hf.
    assert (parse_template (S fuel) (String c r)
            = option_map (cons (TLit c)) (parse_template fuel r)) as ->.
    { destruct c as [[] [] [] [] [] [] [] []];
        try reflexivity; vm_compute in Hc; discriminate. }
    rewrite IH by (assumption || lia). reflexivity.
Qed.

Lemma expand_plain (repl whole : string) : expand (plain repl) whole = repl.
Proof. induction repl as [|c r IH]; cbn; [reflexivity | now rewrite IH]. Qed.

Lemma lit_sub_scan_plain (old repl : string) (icase : bool) (s : string)
      (skip : nat) :
  lit_sub_scan (Literal old icase) (plain repl) skip s
  = replace_scan (char_eq icase) old repl skip s.
Proof.
  revert skip; induction s as [|c s IH]; intros skip.
  - cbn. destruct skip; [|reflexivity].
    destruct old; [apply expand_plain | reflexivity].
  - cbn [lit_sub_scan replace_scan lit_chars lit_icase].
    destruct skip as [|k]; [|apply IH].
    destruct old as [|o old'].
    + now rewrite expand_plain, IH.
    + destruct (starts_with (char_eq icase) (String o old') (String c s)).
      * now rewrite expand_plain, IH.
      * now rewrite IH.
Qed.

(** The case-sensitive branch replaces literally. *)
Lemma ci_replace_sensitive (name find_term replace_with : string) :
  ci_replace name find_term replace_with true
  = Done (replaced_literally name find_term replace_with true).
Proof.
  unfold ci_replace, replaced_literally.
  destruct (String.eqb find_term ""); reflexivity.
Qed.

(** So does the case-insensitive branch when the replacement has no
    backslash. *)
Lemma ci_replace_plain (name find_term replace_with : string) :
  has_char "\" replace_with = false ->
  ci_replace name find_term replace_with false
  = Done (replaced_literally name find_term replace_with false).
Proof.
  intros H. destruct (String.eqb_spec find_term "") as [-> | Hne].
  - reflexivity.
  - rewrite ci_replace_insensitive by exact Hne.
    unfold template. rewrite parse_template_plain by (exact H || lia).
    rewrite lit_sub_scan_plain. unfold replaced_literally.
    destruct (String.eqb_spec find_term ""); [contradiction | reflexivity].
Qed.

(** Comparing characters after folding is comparing the lower-cased
    strings: the occurrences are those of [lower find] in [lower name]. *)
Lemma starts_with_lower (p s : string) :
  starts_with (char_eq true) p s = startswith (lower p) (lower s).
Proof.
  revert s; induction p as [|a p IH]; intros [|b s]; try reflexivity.
  cbn. now rewrite IH.
Qed.

Lemma name_matches_empty (name : string) (case_sensitive : bool) :
  name_matches name "" case_sensitive = false.
Proof. reflexivity. Qed.

End MatcherFacts.

(** ** The collision resolver *)

Module ResolverFacts.
Import PyStr PosixPath PyStrFacts PosixPathFacts Renamer.

Section Probe.
Variable path_exists : string -> bool.
Variable candidate : Z -> string.

(** What the loop returns is the first free candidate from [i] on. *)
Lemma probe_first_free (fuel : nat) (i : Z) (r : string) :
  probe path_exists candidate fuel i = Done r ->
  exists k, i <= k /\ r = candidate k /\
            path_exists (candidate k) = false /\
            forall j, i <= j < k -> path_exists (candidate j) = true.
Proof.
  revert i; induction fuel as [|fuel IH]; intros i H; cbn [probe] in H.
  - discriminate.
  - destruct (path_exists (candidate i)) eqn:E; cbn [negb] in H.
    + destruct (IH _ H) as (k & Hk & -> & Hfree & Hbusy).
      exists k. repeat split; try assumption; try lia.
      intros j Hj. destruct (Z.eq_dec j i) as [->|]; [exact E|].
      apply Hbusy. lia.
    + injection H as <-. exists i. repeat split; try assumption; lia.
Qed.

(** The loop returns as soon as the fuel reaches a free candidate. *)
Lemma probe_returns (n : Z) (fuel : nat) (i : Z) :
  i <= n -> path_exists (candidate n) = false ->
  (Z.to_nat (n - i) < fuel)%nat ->
  exists r, probe path_exists candidate fuel i = Done r.
Proof.
  revert i; induction fuel as [|fuel IH]; intros i Hi Hn Hf; [lia|].
  cbn [probe]. destruct (path_exists (candidate i)) eqn:E; cbn [negb].
  - apply IH; try assumption.
    + destruct (Z.eq_dec i n) as [->|]; [congruence | lia].
    + destruct (Z.eq_dec i n) as [->|]; [congruence | lia].
  - now exists (candidate i).
Qed.

(** When every candidate exists the loop never ends. *)
Lemma probe_diverges (fuel : nat) (i : Z) :
  (forall k, i <= k -> path_exists (candidate k) = true) ->
  probe path_exists candidate fuel i = OutOfFuel.
Proof.
  revert i; induction fuel as [|fuel IH]; intros i H; cbn [probe].
  - reflexivity.
  - rewrite (H i) by lia. cbn [negb]. apply IH. intros k Hk. apply H. lia.
Qed.
End Probe.

(** The numbered candidates of a destination stay in its directory. *)
Lemma numbered_join (d n : string) (i : Z) :
  is_head d -> has_char sep n = false ->
  numbered (join d n) i =
  join d (fst (splitext n) ++ "(" ++ str_of_int i ++ ")" ++ snd (splitext n)).
Proof.
  intros Hd Hn. unfold numbered. rewrite split_join by assumption.
  now destruct (splitext n).
Qed.

Lemma numbered_name_no_sep (n : string) (i : Z) :
  has_char sep n = false ->
  has_char sep (fst (splitext n) ++ "(" ++ str_of_int i ++ ")"
                ++ snd (splitext n)) = false.
Proof.
  intros Hn. destruct (splitext_no_sep n Hn) as [Hr He].
  rewrite !has_char_append, Hr, He.
  pose proof (str_of_int_no_slash i) as Hi. unfold sep. rewrite Hi.
  reflexivity.
Qed.

Lemma dirname_resolved (path_exists : string -> bool) (fuel : nat)
      (d n r : string) :
  is_head d -> has_char sep n = false ->
  next_nonconflicting_path path_exists fuel (join d n) = Done r ->
  dirname r = d.
Proof.
  intros Hd Hn. unfold next_nonconflicting_path.
  destruct (path_exists (join d n)); cbn [negb]; intros H.
  - apply probe_first_free in H as (k & _ & -> & _).
    rewrite numbered_join by assumption.
    apply dirname_join; [assumption | now apply numbered_name_no_sep].
  - injection H as <-. now apply dirname_join.
Qed.

End ResolverFacts.

(** ** The planner *)

Module PlannerFacts.
Import PyStr PosixPath PyStrFacts PosixPathFacts PyRe Renamer ResolverFacts.

Section Plan.
Variable re : engine.
Variable path_exists : string -> bool.
Variables (find_term replace_with : string).
Variables (case_sensitive : bool) (exts : list string) (regex : bool).

Local Abbreviation substituted :=
  (Renamer.substituted re find_term replace_with case_sensitive regex).
Local Abbreviation plan_target :=
  (Renamer.plan_target re path_exists find_term replace_with case_sensitive
                       exts regex).
Local Abbreviation plan_loop :=
  (Renamer.plan_loop re path_exists find_term replace_with case_sensitive
                     exts regex).

(** What it takes for a target to be planned. *)
Lemma plan_target_planned (fuel : nat) (path : string) (is_dir : bool)
      (c : change) :
  plan_target fuel path is_dir = Done (Some c) ->
  exists new_name dst_final,
    c = (path, dst_final, is_dir) /\
    eligible path is_dir exts = true /\
    substituted (snd (split path)) = Done (Some new_name) /\
    new_name <> snd (split path) /\
    next_nonconflicting_path path_exists fuel
      (join (fst (split path)) new_name) = Done dst_final.
Proof.
  unfold Renamer.plan_target.
  destruct (eligible path is_dir exts); cbn [negb]; [|discriminate].
  destruct (split path) as [dirn name]; cbn [fst snd].
  destruct (substituted name) as [[new_name|]| |]; cbn [bind];
    try discriminate.
  destruct (String.eqb_spec new_name name) as [|Hne]; [discriminate|].
  destruct (next_nonconflicting_path _ _ _) as [dst| |] eqn:E; cbn [bind];
    try discriminate.
  intros H. injection H as <-. now exists new_name, dst.
Qed.

(** Every planned change comes from a target of the walk. *)
Lemma plan_loop_In (fuel : nat) (targets : list (string * bool))
      (changes : list change) (c : change) :
  plan_loop fuel targets = Done changes -> In c changes ->
  exists path is_dir,
    In (path, is_dir) targets /\ plan_target fuel path is_dir = Done (Some c).
Proof.
  revert changes; induction targets as [|[path is_dir] rest IH];
    intros changes H Hin.
  - injection H as <-. destruct Hin.
  - cbn [Renamer.plan_loop] in H.
    destruct (plan_target fuel path is_dir) as [r| |] eqn:E; cbn [bind] in H;
      try discriminate.
    destruct (plan_loop fuel rest) as [more| |] eqn:E'; cbn [bind] in H;
      try discriminate.
    injection H as <-.
    assert (In c more -> exists path0 is_dir0,
               In (path0, is_dir0) ((path, is_dir) :: rest) /\
               plan_target fuel path0 is_dir0 = Done (Some c)) as Hmore.
    { intros Hc. destruct (IH more eq_refl Hc) as (p & d & Hp & Hd).
      exists p, d. split; [now right | exact Hd]. }
    destruct r as [c'|]; [|now apply Hmore].
    destruct Hin as [<- | Hc]; [|now apply Hmore].
    exists path, is_dir. split; [now left | exact E].
Qed.

(** The plan is made when each target's step is. *)
Lemma plan_loop_done (fuel : nat) (targets : list (string * bool)) :
  (forall path is_dir, In (path, is_dir) targets ->
                       exists r, plan_target fuel path is_dir = Done r) ->
  exists changes, plan_loop fuel targets = Done changes.
Proof.
  induction targets as [|[path is_dir] rest IH]; intros H.
  - now exists [].
  - cbn [Renamer.plan_loop].
    destruct (H path is_dir (or_introl eq_refl)) as [r ->].
    destruct IH as [more ->]; [intros p d Hp; apply H; now right|].
    cbn [bind]. eauto.
Qed.

End Plan.

End PlannerFacts.

Module PlanMatchFacts.
Import PyStr PosixPath PosixPathFacts PyRe Renamer PlannerFacts.

(** A name that gets a new name satisfies the find criterion, the one
    [find_matches] tests. *)
Lemma substituted_matches (re : engine) (find_term replace_with : string)
      (case_sensitive regex : bool) (name new_name : string) :
  substituted re find_term replace_with case_sensitive regex name
  = Done (Some new_name) ->
  (if regex then
     match compile re find_term (negb case_sensitive) with
     | Some rx => search re rx name
     | None => false
     end
   else name_matches name find_term case_sensitive) = true.
Proof.
  unfold substituted, regex_replace_name. destruct regex.
  - destruct (compile re find_term (negb case_sensitive)) as [rx|];
      [|discriminate].
    destruct (search re rx name); [reflexivity|discriminate].
  - destruct (name_matches name find_term case_sensitive);
      [reflexivity|discriminate].
Qed.

(** In literal mode an empty find term plans nothing. *)
Lemma plan_loop_empty_term (re : engine) (path_exists : string -> bool)
      (replace_with : string) (case_sensitive : bool) (exts : list string)
      (fuel : nat) (targets : list (string * bool)) :
  plan_loop re path_exists "" replace_with case_sensitive exts false fuel targets
  = Done [].
Proof.
  induction targets as [|[path is_dir] rest IH]; [reflexivity|].
  cbn [plan_loop]. rewrite IH.
  unfold plan_target. destruct (eligible path is_dir exts); [|reflexivity].
  cbn [negb]. destruct (split path) as [dirn name]. reflexivity.
Qed.

End PlanMatchFacts.

(** * The claims of the specification *)

Import PyRe PyStrFacts PosixPathFacts MatcherFacts ResolverFacts PlannerFacts
       PlanMatchFacts Renamer.

(** ** Matcher: the empty find term *)

(** In literal mode an empty find term never matches: [name_matches]
    answers [False] for every name and flag, and [plan_changes] in literal
    mode plans nothing under the empty find term, whatever the tree. *)
Lemma empty_term_literal_mode :
  (forall name case_sensitive, name_matches name "" case_sensitive = false) /\
  (forall re path_exists os_walk fuel root replace_with case_sensitive
          include_dirs exts,
      plan_changes re path_exists os_walk fuel root "" replace_with
                   case_sensitive include_dirs exts false = Done []).
Proof.
  split.
  - intros; apply name_matches_empty.
  - intros; apply plan_loop_empty_term.
Qed.

(** C3, on the code: in regex mode an empty find term matches every name.
    When the find term is asked again (answer [c] to the confirmation of
    [main]), a line made of two double quotes gives the empty find term,
    and nothing checks it afterwards.  With the empty pattern
    [regex_replace_name] reports a match for the name [a], and
    [plan_changes] in regex mode plans the rename of the one file [r/a] of
    a tree; the literal sibling [name_matches] rejects the same input. *)
Theorem C3_empty_regex_matches :
  RenamerIO.reprompt_find_term
    (Some "Report")
    [String RenamerIO.dquote (String RenamerIO.dquote "")]
  = Done (Some "", []) /\
  regex_replace_name literal_re "a" "" "X" true = Done (true, "XaX") /\
  plan_changes literal_re (fun _ => false) (fun _ => [("r", [], ["a"])])
               0 "r" "" "X" true false [] true
  = Done [("r/a", "r/XaX", false)] /\
  name_matches "a" "" true = false.
Proof. repeat split; reflexivity. Qed.

(** ** Planner *)

Section PlannerClaims.
Variable re : PyRe.engine.
Variable path_exists : string -> bool.
Variable os_walk : string -> list walk_item.
Variables (fuel : nat) (root find_term replace_with : string).
Variables (case_sensitive include_dirs : bool) (exts : list string).
Variable regex : bool.

Local Abbreviation plan :=
  (plan_changes re path_exists os_walk fuel root find_term replace_with
                case_sensitive include_dirs exts regex).
Local Abbreviation new_name_of :=
  (substituted re find_term replace_with case_sensitive regex).

Lemma planned_change (changes : list change) (src dst : string)
      (is_dir : bool) :
  plan = Done changes -> In (src, dst, is_dir) changes ->
  In (src, is_dir) (iter_targets os_walk root include_dirs) /\
  eligible src is_dir exts = true /\
  exists new_name,
    new_name_of (basename src) = Done (Some new_name) /\
    new_name <> basename src /\
    next_nonconflicting_path path_exists fuel (join (dirname src) new_name)
    = Done dst.
Proof.
  intros Hplan Hin.
  destruct (plan_loop_In _ _ _ _ _ _ _ _ _ _ _ Hplan Hin)
    as (path & d & Htarget & Hstep).
  apply plan_target_planned in Hstep
    as (new_name & dst' & Hc & Hel & Hsub & Hne & Hdst).
  injection Hc as -> -> ->.
  repeat split; try assumption. now exists new_name.
Qed.

(** C4, as amended: a planned change keeps the entry in its directory
    when the new base name has no path separator.  For every change
    (source, destination, is_dir) of the plan, the base name of the source
    has a new name (the result of the literal or regex substitution), and
    if this new name contains no [/] then the parent directory of the
    destination is the parent directory of the source. *)
Theorem C4_destination_keeps_directory (changes : list change)
        (src dst : string) (is_dir : bool) :
  plan = Done changes -> In (src, dst, is_dir) changes ->
  exists new_name,
    new_name_of (basename src) = Done (Some new_name) /\
    (has_char sep new_name = false -> dirname dst = dirname src).
Proof.
  intros Hplan Hin.
  destruct (planned_change _ _ _ _ Hplan Hin)
    as (_ & _ & new_name & Hsub & _ & Hdst).
  exists new_name. split; [exact Hsub|]. intros Hsep.
  apply dirname_resolved in Hdst; [exact Hdst | | exact Hsep].
  apply split_head_is_head.
Qed.

(** C8: a no-op rename is never proposed.  When the literal or regex
    substitution gives the base name of an entry back unchanged, no change
    of the plan has this entry as its source. *)
Theorem C8_noop_rename_excluded (changes : list change) (path : string) :
  plan = Done changes ->
  new_name_of (basename path) = Done (Some (basename path)) ->
  forall dst is_dir, ~ In (path, dst, is_dir) changes.
Proof.
  intros Hplan Hsame dst is_dir Hin.
  destruct (planned_change _ _ _ _ Hplan Hin)
    as (_ & _ & new_name & Hsub & Hne & _).
  rewrite Hsame in Hsub. now injection Hsub as <-.
Qed.

(** C10: planning refines find-only matching.  Every source of a change
    of the plan is reported, with the same directory flag, by
    [find_matches] under the same root, find term, case sensitivity,
    directory inclusion, extension list and regex flag. *)
Theorem C10_plan_sources_are_matches (changes : list change)
        (src dst : string) (is_dir : bool) :
  plan = Done changes -> In (src, dst, is_dir) changes ->
  In (src, is_dir)
     (find_matches re os_walk root find_term case_sensitive include_dirs
                   exts regex).
Proof.
  intros Hplan Hin.
  destruct (planned_change _ _ _ _ Hplan Hin)
    as (Htarget & Hel & new_name & Hsub & _ & _).
  unfold find_matches. apply filter_In. split; [exact Htarget|].
  rewrite Hel. cbn [negb].
  exact (substituted_matches _ _ _ _ _ _ _ Hsub).
Qed.

End PlannerClaims.

(** C4, counterexample: a replacement with a path separator moves the
    entry.  With find=[a] and replace=[b/c] the file [r/a.txt] is planned
    to go to [r/b/c.txt], whose parent directory is [r/b], not [r]. *)
Lemma C4_separator_in_replacement :
  plan_changes literal_re (fun _ => false) (fun _ => [("r", [], ["a.txt"])])
               0 "r" "a" "b/c" true false [] false
  = Done [("r/a.txt", "r/b/c.txt", false)] /\
  dirname "r/b/c.txt" <> dirname "r/a.txt".
Proof. split; [reflexivity | discriminate]. Qed.

Lemma C4_destination_keeps_directory_witness :
  exists new_name,
    substituted literal_re "Report" "Rpt" false false
                (basename "r/Reports/Report-789.txt") = Done (Some new_name) /\
    (has_char sep new_name = false ->
     dirname "r/Reports/Rpt-789.txt" = dirname "r/Reports/Report-789.txt").
Proof.
  apply (C4_destination_keeps_directory literal_re Demo.path_exists Demo.walk
           5 "r" "Report" "Rpt" false false [] false Demo.changes
           "r/Reports/Report-789.txt" "r/Reports/Rpt-789.txt" false).
  - vm_compute. reflexivity.
  - right; right; left. reflexivity.
Defined.

Lemma C8_noop_rename_excluded_witness :
  substituted literal_re "r" "r" false false (basename "r/draft_note.txt")
  = Done (Some "draft_note.txt") /\
  forall dst is_dir,
    ~ In ("r/draft_note.txt", dst, is_dir)
         [ ("r/Report-123.txt", "r/report-123.txt", false);
           ("r/Report-456.pdf", "r/report-456.pdf", false);
           ("r/Reports/Report-789.txt", "r/Reports/report-789.txt", false) ].
Proof.
  split; [vm_compute; reflexivity|].
  apply (C8_noop_rename_excluded literal_re Demo.path_exists Demo.walk
           5 "r" "r" "r" false false [] false).
  - vm_compute. reflexivity.
  - vm_compute. reflexivity.
Defined.

Lemma C10_plan_sources_are_matches_witness :
  In ("r/Report-456.pdf", false)
     (find_matches literal_re Demo.walk "r" "Report" false false [] false).
Proof.
  apply (C10_plan_sources_are_matches literal_re Demo.path_exists Demo.walk
           5 "r" "Report" "Rpt" false false [] false Demo.changes
           "r/Report-456.pdf" "r/Rpt-456.pdf").
  - vm_compute. reflexivity.
  - right; left. reflexivity.
Defined.

(** ** Collision resolver *)

Section ResolverClaims.
Variable path_exists : string -> bool.

(** C5: [next_nonconflicting_path] returns the desired path when it does
    not exist; otherwise, as soon as some numbered candidate is free, it
    returns stem(i)extension (in the directory of the desired path, stem
    and extension being those of its base name) for the smallest [i >= 1]
    whose candidate does not exist, every candidate below [i] having been
    found to exist; and a path it returns never exists. *)
Theorem C5_next_nonconflicting_path (dst : string) :
  (path_exists dst = false ->
   forall fuel, next_nonconflicting_path path_exists fuel dst = Done dst) /\
  (path_exists dst = true ->
   forall n, 1 <= n -> path_exists (numbered dst n) = false ->
   forall fuel, (Z.to_nat n <= fuel)%nat ->
   exists i,
     1 <= i <= n /\
     next_nonconflicting_path path_exists fuel dst = Done (numbered dst i) /\
     path_exists (numbered dst i) = false /\
     forall j, 1 <= j < i -> path_exists (numbered dst j) = true) /\
  (forall fuel r,
      next_nonconflicting_path path_exists fuel dst = Done r ->
      path_exists r = false) /\
  (forall i,
      numbered dst i =
      join (dirname dst)
           (fst (splitext (basename dst)) ++ "(" ++ str_of_int i ++ ")"
            ++ snd (splitext (basename dst)))).
Proof.
  unfold next_nonconflicting_path. repeat split.
  - intros E fuel. now rewrite E.
  - intros E n Hn Hfree fuel Hfuel. rewrite E. cbn [negb].
    destruct (probe_returns path_exists (numbered dst) n fuel 1)
      as [r Hr]; [lia | exact Hfree | lia |].
    destruct (probe_first_free _ _ _ _ _ Hr) as (i & Hi & -> & Hf & Hbusy).
    exists i. repeat split; try assumption.
    destruct (Z.le_gt_cases i n) as [|Hgt]; [assumption|].
    rewrite (Hbusy n) in Hfree by lia. discriminate.
  - intros fuel r. destruct (path_exists dst) eqn:E; cbn [negb]; intros H.
    + now apply probe_first_free in H as (k & _ & -> & Hf & _).
    + now injection H as <-.
  - intros i. unfold numbered, dirname, basename, split. cbn [fst snd].
    now destruct (splitext _).
Qed.

(** C9: [backup_nonconflicting_path] returns source + [.bak] when that
    path does not exist; otherwise, as soon as some numbered backup path
    is free, source + [.bak(i)] for the smallest [i >= 1] whose candidate
    does not exist; what it returns never exists and is the source
    followed by [.bak] and, possibly, the number in parentheses: the
    number comes after the suffix. *)
Theorem C9_backup_nonconflicting_path (src : string) :
  (path_exists (src ++ ".bak") = false ->
   forall fuel,
     backup_nonconflicting_path path_exists fuel src = Done (src ++ ".bak")) /\
  (path_exists (src ++ ".bak") = true ->
   forall n, 1 <= n ->
   path_exists (src ++ ".bak(" ++ str_of_int n ++ ")") = false ->
   forall fuel, (Z.to_nat n <= fuel)%nat ->
   exists i,
     1 <= i <= n /\
     backup_nonconflicting_path path_exists fuel src
     = Done (src ++ ".bak(" ++ str_of_int i ++ ")") /\
     path_exists (src ++ ".bak(" ++ str_of_int i ++ ")") = false /\
     forall j, 1 <= j < i ->
               path_exists (src ++ ".bak(" ++ str_of_int j ++ ")") = true) /\
  (forall fuel r,
      backup_nonconflicting_path path_exists fuel src = Done r ->
      path_exists r = false /\
      (r = src ++ ".bak" \/
       exists i, 1 <= i /\ r = src ++ ".bak" ++ "(" ++ str_of_int i ++ ")")).
Proof.
  unfold backup_nonconflicting_path. repeat split.
  - intros E fuel. now rewrite E.
  - intros E n Hn Hfree fuel Hfuel. rewrite E. cbn [negb].
    destruct (probe_returns path_exists (backup_numbered src) n fuel 1)
      as [r Hr]; [lia | exact Hfree | lia |].
    destruct (probe_first_free _ _ _ _ _ Hr) as (i & Hi & -> & Hf & Hbusy).
    exists i. repeat split; try assumption.
    destruct (Z.le_gt_cases i n) as [|Hgt]; [assumption|].
    unfold backup_numbered in Hbusy.
    rewrite (Hbusy n) in Hfree by lia. discriminate.
  - destruct (path_exists (src ++ ".bak")) eqn:E; cbn [negb] in H.
    + now apply probe_first_free in H as (k & _ & -> & Hf & _).
    + now injection H as <-.
  - destruct (path_exists (src ++ ".bak")) eqn:E; cbn [negb] in H.
    + apply probe_first_free in H as (k & Hk & -> & _). right.
      exists k. split; [exact Hk | reflexivity].
    + left. now injection H as <-.
Qed.

End ResolverClaims.

Lemma C5_next_nonconflicting_path_witness :
  exists i,
    1 <= i <= 4 /\
    next_nonconflicting_path Demo.crowded 4 "d/a.txt"
    = Done (numbered "d/a.txt" i) /\
    Demo.crowded (numbered "d/a.txt" i) = false /\
    forall j, 1 <= j < i -> Demo.crowded (numbered "d/a.txt" j) = true.
Proof.
  apply (proj1 (proj2 (C5_next_nonconflicting_path Demo.crowded "d/a.txt"))).
  - reflexivity.
  - lia.
  - reflexivity.
  - simpl; lia.
Defined.

Lemma C9_backup_nonconflicting_path_witness :
  exists i,
    1 <= i <= 3 /\
    backup_nonconflicting_path Demo.crowded 3 "d/a.txt"
    = Done ("d/a.txt" ++ ".bak(" ++ str_of_int i ++ ")") /\
    Demo.crowded ("d/a.txt" ++ ".bak(" ++ str_of_int i ++ ")") = false /\
    forall j, 1 <= j < i ->
              Demo.crowded ("d/a.txt" ++ ".bak(" ++ str_of_int j ++ ")") = true.
Proof.
  apply (proj1 (proj2 (C9_backup_nonconflicting_path Demo.crowded "d/a.txt"))).
  - reflexivity.
  - lia.
  - reflexivity.
  - simpl; lia.
Defined.

(** ** Approval loop and executor *)

Module ExecutorFacts.
Import Renamer.

Lemma count_events_app (p : event -> bool) (a b : list event) :
  count_events p (a ++ b)%list = count_events p a + count_events p b.
Proof.
  unfold count_events. rewrite filter_app, length_app. lia.
Qed.

Ltac effect_done :=
  cbn; rewrite <- ?app_assoc;
  repeat split; try reflexivity; try lia; try discriminate.

Section Exec.
Variable world : Type.
Variable exists_in : world -> string -> bool.
Variable copy2 : string -> string -> world -> world * option os_error.
Variable rename : string -> string -> world -> world * option os_error.

Local Abbreviation execute_one :=
  (Renamer.execute_one world exists_in copy2 rename).
Local Abbreviation execute :=
  (Renamer.execute world exists_in copy2 rename).

(** One item: the events it adds and what they do to the counters. *)
Lemma execute_one_effect (fuel : nat) (dry_run backup : bool) (c : change)
      (st st' : state world) :
  execute_one fuel dry_run backup c st = Done st' ->
  exists evs,
    trace _ st' = (trace _ st ++ evs)%list /\
    renamed (count _ st') = renamed (count _ st)
                            + count_events is_success evs
                            + count_events is_dry_run evs /\
    errors (count _ st') = errors (count _ st) + count_events is_failed evs /\
    skipped (count _ st') = skipped (count _ st) /\
    renamed (count _ st') + errors (count _ st')
    = renamed (count _ st) + errors (count _ st) + 1 /\
    (dry_run = true -> errors (count _ st') = errors (count _ st)).
Proof.
  destruct c as [[src dst] is_dir], st as [w [r s e] tr].
  unfold Renamer.execute_one. cbn [fs count trace].
  destruct dry_run.
  - destruct (backup && negb is_dir).
    + destruct (backup_nonconflicting_path _ _ _) as [bk| |];
        cbn [bind]; try discriminate.
      intros H; injection H as <-.
      exists [LogDryRunBackup src bk; LogDryRun src dst]. effect_done.
    + cbn [bind]. intros H; injection H as <-.
      exists [LogDryRun src dst]. effect_done.
  - destruct (backup && negb is_dir).
    + destruct (backup_nonconflicting_path _ _ _) as [bk| |];
        cbn [bind]; try discriminate.
      destruct (copy2 src bk w) as [w1 [err|]]; cbn [bind negb].
      * intros H; injection H as <-.
        exists [CallCopy2 src bk; LogBackupFailed src bk]. effect_done.
      * cbn [emit fs count trace].
        destruct (rename src dst w1) as [w2 [[| |]|]];
          intros H; injection H as <-;
          [ exists [CallCopy2 src bk; LogBackup src bk; CallRename src dst;
                    LogNotFound src dst]
          | exists [CallCopy2 src bk; LogBackup src bk; CallRename src dst;
                    LogPermission src dst]
          | exists [CallCopy2 src bk; LogBackup src bk; CallRename src dst;
                    LogError src dst]
          | exists [CallCopy2 src bk; LogBackup src bk; CallRename src dst;
                    LogRenamed src dst] ];
          effect_done.
    + cbn [bind negb emit fs count trace].
      destruct (rename src dst w) as [w2 [[| |]|]];
        intros H; injection H as <-;
        [ exists [CallRename src dst; LogNotFound src dst]
        | exists [CallRename src dst; LogPermission src dst]
        | exists [CallRename src dst; LogError src dst]
        | exists [CallRename src dst; LogRenamed src dst] ];
        effect_done.
Qed.

(** The loop keeps the counters and the trace in step, and every item
    it handles is counted once, as renamed or as an error. *)
Lemma execute_counted (fuel : nat) (dry_run backup : bool)
      (cs : list change) (st st' : state world) :
  execute fuel dry_run backup cs st = Done st' ->
  counted _ st ->
  counted _ st' /\
  renamed (count _ st') + errors (count _ st')
  = renamed (count _ st) + errors (count _ st) + Z.of_nat (List.length cs) /\
  (dry_run = true -> errors (count _ st') = errors (count _ st)).
Proof.
  revert st; induction cs as [|c cs IH]; intros st H Hc.
  - injection H as <-. cbn. repeat split; try apply Hc; lia.
  - cbn [Renamer.execute] in H.
    destruct (execute_one fuel dry_run backup c st) as [st1| |] eqn:E;
      cbn [bind] in H; try discriminate.
    apply execute_one_effect in E
      as (evs & Htr & Hren & Herr & Hsk & Hsum & Hdry).
    assert (counted _ st1) as Hc1.
    { destruct Hc as (Hr & He & Hs). unfold counted.
      rewrite Htr, !count_events_app. repeat split; lia. }
    destruct (IH st1 H Hc1) as (Hc' & Hsum' & Hdry').
    split; [exact Hc'|]. split.
    + cbn [List.length]. lia.
    + intros D. rewrite (Hdry' D). now apply Hdry.
Qed.

(** Without backups nothing in the executor loops. *)
Lemma execute_returns (fuel : nat) (dry_run : bool) (cs : list change)
      (st : state world) :
  exists st', execute fuel dry_run false cs st = Done st'.
Proof.
  revert st; induction cs as [|[[src dst] is_dir] cs IH]; intros st.
  - now exists st.
  - cbn [Renamer.execute]. unfold Renamer.execute_one.
    destruct dry_run; cbn [andb bind negb].
    + apply IH.
    + destruct (rename src dst (fs _ st)) as [w [[| |]|]]; cbn [bind];
        apply IH.
Qed.

End Exec.

End ExecutorFacts.

Import ExecutorFacts.

(** C1, on the code: a quit answer does not end the approvals.  For a plan
    of two changes and the answers [q], [y], the loop of [main] prompts for
    the second change after the quit given for the first, and approves it:
    the [break] of the quit branch leaves the inner [while True] only. *)
Theorem C1_quit_keeps_prompting (c1 c2 : change) :
  approve_loop [c1; c2] ["q"; "y"] = Done (Approval [c2] [c1; c2] []).
Proof. reflexivity. Qed.

(** C2, on the code: in case-insensitive literal mode the replacement is
    read as a template of [re.sub].  For the name [Report.txt] and the find
    term [report], the replacement [a\nb] puts a line feed, not a backslash
    and an [n], in the name, and the replacement [v\1] raises [re.error];
    the literal replacement of the specification gives [a\nb.txt] and
    [v\1.txt]. *)
Theorem C2_replacement_is_a_template :
  ci_replace "Report.txt" "report" "a\nb" false
  = Done ("a" ++ String (ascii_of_nat 10) "b.txt") /\
  replaced_literally "Report.txt" "report" "a\nb" false = "a\nb.txt" /\
  ci_replace "Report.txt" "report" "v\1" false = Raised ReError /\
  replaced_literally "Report.txt" "report" "v\1" false = "v\1.txt".
Proof. repeat split; reflexivity. Qed.

Section ExecutorClaims.
Variable world : Type.
Variable exists_in : world -> string -> bool.
Variable copy2 : string -> string -> world -> world * option os_error.
Variable rename : string -> string -> world -> world * option os_error.

Local Abbreviation execute_one :=
  (Renamer.execute_one world exists_in copy2 rename).
Local Abbreviation execute :=
  (Renamer.execute world exists_in copy2 rename).
Local Abbreviation main_apply :=
  (Renamer.main_apply world exists_in copy2 rename).

(** The summary of a run, in terms of its trace. *)
Lemma main_apply_summary (fuel : nat) (approve_each dry_run backup : bool)
      (changes : list change) (inputs : list string) (w : world)
      (s : summary) (st : state world) (ap : approval) :
  main_apply fuel approve_each dry_run backup changes inputs w
  = Done (Some (s, st, ap)) ->
  (ap = Approval changes [] inputs /\ approve_each = false \/
   approve_loop changes inputs = Done ap /\ approve_each = true) /\
  counted _ st /\
  s = Summary (Z.of_nat (List.length changes)) (renamed (count _ st))
              (if approve_each
               then Z.of_nat (List.length changes) - renamed (count _ st)
                    - errors (count _ st)
               else 0)
              (errors (count _ st)) /\
  renamed (count _ st) + errors (count _ st)
  = Z.of_nat (List.length (to_apply ap)) /\
  (dry_run = true -> errors (count _ st) = 0).
Proof.
  unfold Renamer.main_apply.
  destruct (Z.of_nat (List.length changes) =? 0); [discriminate|].
  intros H.
  assert (exists ap0,
             (ap0 = Approval changes [] inputs /\ approve_each = false \/
              approve_loop changes inputs = Done ap0 /\ approve_each = true) /\
             (st0 <- execute fuel dry_run backup (to_apply ap0)
                             (State world w (Counters 0 0 0) []) ;;
              Done (Some
                (Summary (Z.of_nat (List.length changes))
                         (renamed (count _ st0))
                         (if approve_each
                          then Z.of_nat (List.length changes)
                               - renamed (count _ st0) - errors (count _ st0)
                          else skipped (count _ st0))
                         (errors (count _ st0)), st0, ap0)))
             = Done (Some (s, st, ap))) as (ap0 & Hap & Hrun).
  { destruct approve_each.
    - destruct (approve_loop changes inputs) as [ap0| |]; cbn [bind] in H;
        try discriminate.
      exists ap0. split; [now right | exact H].
    - cbn [bind] in H. eexists. split; [left; split; reflexivity | exact H]. }
  destruct (execute fuel dry_run backup (to_apply ap0) _) as [st0| |] eqn:E;
    cbn [bind] in Hrun; try discriminate.
  injection Hrun as <- <- <-.
  apply execute_counted in E as (Hc & Hsum & Hdry);
    [|cbn; repeat split; reflexivity].
  cbn [count renamed errors] in Hsum, Hdry.
  split; [exact Hap|]. split; [exact Hc|]. split; [|split].
  - destruct Hc as (_ & _ & ->). reflexivity.
  - lia.
  - exact Hdry.
Qed.

(** One item of the executor against the outcome of the specification
    for it: same file system afterwards, and the counter of the outcome
    goes up by one. *)
Lemma execute_one_outcome (fuel : nat) (dry_run backup : bool) (c : change)
      (st st' : state world) :
  execute_one fuel dry_run backup c st = Done st' ->
  exists o,
    ExecutorSpec.outcome_of world exists_in copy2 rename fuel dry_run backup c
                            (fs _ st) = Done (fs _ st', o) /\
    renamed (count _ st')
    = renamed (count _ st)
      + ExecutorSpec.count_status ExecutorSpec.Applied [o]
      + ExecutorSpec.count_status ExecutorSpec.DryRun [o] /\
    errors (count _ st')
    = errors (count _ st) + ExecutorSpec.count_status ExecutorSpec.Failed [o] /\
    (dry_run = true -> o = ExecutorSpec.DryRun) /\
    (dry_run = false -> o <> ExecutorSpec.DryRun).
Proof.
  destruct c as [[src dst] is_dir], st as [w [r s e] tr].
  unfold Renamer.execute_one, ExecutorSpec.outcome_of,
    ExecutorSpec.rename_attempt.
  cbn [fs count trace].
  destruct dry_run.
  - destruct (backup && negb is_dir).
    + destruct (backup_nonconflicting_path _ _ _) as [bk| |];
        cbn [bind]; try discriminate.
      intros H; injection H as <-. exists ExecutorSpec.DryRun.
      cbn. repeat split; try lia; discriminate.
    + cbn [bind]. intros H; injection H as <-. exists ExecutorSpec.DryRun.
      cbn. repeat split; try lia; discriminate.
  - destruct (backup && negb is_dir).
    + destruct (backup_nonconflicting_path _ _ _) as [bk| |];
        cbn [bind]; try discriminate.
      destruct (copy2 src bk w) as [w1 [err|]]; cbn [bind negb].
      * intros H; injection H as <-. exists ExecutorSpec.Failed.
        cbn. repeat split; try lia; discriminate.
      * cbn [emit fs count trace].
        destruct (rename src dst w1) as [w2 [[| |]|]];
          intros H; injection H as <-;
          [ exists ExecutorSpec.Failed | exists ExecutorSpec.Failed
          | exists ExecutorSpec.Failed | exists ExecutorSpec.Applied ];
          cbn; repeat split; try lia; discriminate.
    + cbn [bind negb emit fs count trace].
      destruct (rename src dst w) as [w2 [[| |]|]];
        intros H; injection H as <-;
        [ exists ExecutorSpec.Failed | exists ExecutorSpec.Failed
        | exists ExecutorSpec.Failed | exists ExecutorSpec.Applied ];
        cbn; repeat split; try lia; discriminate.
Qed.

Lemma count_status_cons (a o : ExecutorSpec.status)
      (outs : list ExecutorSpec.status) :
  ExecutorSpec.count_status a (o :: outs)
  = ExecutorSpec.count_status a [o] + ExecutorSpec.count_status a outs.
Proof.
  unfold ExecutorSpec.count_status. cbn [List.filter].
  destruct (ExecutorSpec.is_status a o); cbn [List.length]; lia.
Qed.

(** The executor against the outcomes of the specification. *)
Lemma execute_outcomes (fuel : nat) (dry_run backup : bool)
      (cs : list change) (st st' : state world) :
  execute fuel dry_run backup cs st = Done st' ->
  exists outs,
    ExecutorSpec.outcomes world exists_in copy2 rename fuel dry_run backup cs
                          (fs _ st) = Done (fs _ st', outs) /\
    List.length outs = List.length cs /\
    renamed (count _ st')
    = renamed (count _ st)
      + ExecutorSpec.count_status ExecutorSpec.Applied outs
      + ExecutorSpec.count_status ExecutorSpec.DryRun outs /\
    errors (count _ st')
    = errors (count _ st)
      + ExecutorSpec.count_status ExecutorSpec.Failed outs /\
    (dry_run = true -> forall o, In o outs -> o = ExecutorSpec.DryRun) /\
    (dry_run = false -> forall o, In o outs -> o <> ExecutorSpec.DryRun).
Proof.
  revert st; induction cs as [|c cs IH]; intros st H.
  - injection H as <-. exists []. cbn. repeat split; try lia; intros _ o [].
  - cbn [Renamer.execute] in H.
    destruct (execute_one fuel dry_run backup c st) as [st1| |] eqn:E;
      cbn [bind] in H; try discriminate.
    apply execute_one_outcome in E as (o & Ho & Hr & He & Hd & Hn).
    destruct (IH st1 H) as (outs & Houts & Hlen & Hr' & He' & Hd' & Hn').
    exists (o :: outs). cbn [ExecutorSpec.outcomes].
    rewrite Ho. cbn [bind fst snd]. rewrite Houts. cbn [bind fst snd].
    rewrite !(count_status_cons _ o outs). cbn [List.length].
    repeat split; try lia.
    + intros D x [<- | Hx]; [now apply Hd | now apply Hd'].
    + intros D x [<- | Hx]; [now apply Hn | now apply Hn'].
Qed.

(** C6, as amended: the counters of the summary.  [found] is the number of
    planned changes; [renamed] is the number of operations whose rename
    succeeded plus the number of dry-run outcomes; [errors] is the number of
    operations whose backup or rename failed; with approve-each,
    [skipped] is found - renamed - errors.  The outcomes are those of the
    specification's state machine on the calls of [shutil.copy2] and
    [os.rename], and they leave the file system of the run.  For a plan of
    three changes and the approve-each answers y, n, n a summary is always
    produced (here without backups); it has found = 3 and skipped = 2, with
    renamed = 1, errors = 0 when the approved operation is a dry run or
    succeeds, and renamed = 0, errors = 1 when it fails. *)
Theorem C6_summary_counters :
  (forall fuel approve_each dry_run backup changes inputs w s st ap,
      main_apply fuel approve_each dry_run backup changes inputs w
      = Done (Some (s, st, ap)) ->
      exists outs,
        ExecutorSpec.outcomes world exists_in copy2 rename fuel dry_run backup
                              (to_apply ap) w = Done (fs _ st, outs) /\
        List.length outs = List.length (to_apply ap) /\
        total_found s = Z.of_nat (List.length changes) /\
        sum_renamed s
        = ExecutorSpec.count_status ExecutorSpec.Applied outs
          + ExecutorSpec.count_status ExecutorSpec.DryRun outs /\
        sum_errors s = ExecutorSpec.count_status ExecutorSpec.Failed outs /\
        (approve_each = true ->
         sum_skipped s = total_found s - sum_renamed s - sum_errors s)) /\
  (forall fuel dry_run c1 c2 c3 w,
      exists s st ap,
        main_apply fuel true dry_run false [c1; c2; c3] ["y"; "n"; "n"] w
        = Done (Some (s, st, ap))) /\
  (forall fuel dry_run backup c1 c2 c3 w s st ap,
      main_apply fuel true dry_run backup [c1; c2; c3] ["y"; "n"; "n"] w
      = Done (Some (s, st, ap)) ->
      exists o,
        ExecutorSpec.outcome_of world exists_in copy2 rename fuel dry_run
                                backup c1 w = Done (fs _ st, o) /\
        (dry_run = true -> o = ExecutorSpec.DryRun) /\
        total_found s = 3 /\ sum_skipped s = 2 /\
        (o <> ExecutorSpec.Failed -> sum_renamed s = 1 /\ sum_errors s = 0) /\
        (o = ExecutorSpec.Failed -> sum_renamed s = 0 /\ sum_errors s = 1)).
Proof.
  assert (forall fuel approve_each dry_run backup changes inputs w s st ap,
             main_apply fuel approve_each dry_run backup changes inputs w
             = Done (Some (s, st, ap)) ->
             execute fuel dry_run backup (to_apply ap)
                     (State world w (Counters 0 0 0) []) = Done st) as Hexec.
  { intros fuel approve_each dry_run backup changes inputs w s st ap.
    unfold Renamer.main_apply.
    destruct (Z.of_nat (List.length changes) =? 0); [discriminate|].
    destruct approve_each.
    - destruct (approve_loop changes inputs) as [ap0| |]; cbn [bind];
        try discriminate.
      destruct (execute fuel dry_run backup (to_apply ap0) _) as [st0| |] eqn:E;
        cbn [bind]; try discriminate.
      intros H. injection H as <- <- <-. exact E.
    - cbn [bind to_apply].
      destruct (execute fuel dry_run backup changes _) as [st0| |] eqn:E;
        cbn [bind]; try discriminate.
      intros H. injection H as <- <- <-. exact E. }
  split; [|split].
  - intros fuel approve_each dry_run backup changes inputs w s st ap H.
    pose proof (Hexec _ _ _ _ _ _ _ _ _ _ H) as E.
    apply execute_outcomes in E as (outs & Houts & Hlen & Hr & He & _).
    cbn [fs count renamed errors] in Houts, Hr, He.
    apply main_apply_summary in H as (_ & _ & -> & _ & _).
    exists outs. cbn [total_found sum_renamed sum_errors sum_skipped].
    repeat split; try assumption; try lia. now intros ->.
  - intros fuel dry_run c1 c2 c3 w.
    destruct (execute_returns world exists_in copy2 rename fuel dry_run [c1]
                (State world w (Counters 0 0 0) [])) as [st Hst].
    unfold Renamer.main_apply.
    change (Z.of_nat (List.length [c1; c2; c3]) =? 0) with false.
    change (approve_loop [c1; c2; c3] ["y"; "n"; "n"])
      with (Done (Approval [c1] [c1; c2; c3] [])).
    cbn [bind to_apply]. rewrite Hst. cbn [bind]. eauto.
  - intros fuel dry_run backup c1 c2 c3 w s st ap H.
    pose proof (Hexec _ _ _ _ _ _ _ _ _ _ H) as E.
    apply main_apply_summary in H
      as ([[_ Hf] | [Hap _]] & _ & -> & _ & _); [discriminate|].
    cbn in Hap. injection Hap as <-. cbn [to_apply] in E.
    cbn [Renamer.execute] in E.
    destruct (execute_one fuel dry_run backup c1 _) as [st1| |] eqn:E1;
      cbn [bind] in E; try discriminate.
    injection E as <-.
    apply execute_one_outcome in E1 as (o & Ho & Hr & He & Hd & _).
    cbn [fs count renamed errors] in Ho, Hr, He.
    exists o. cbn [total_found sum_renamed sum_errors sum_skipped
                   List.length Z.of_nat Pos.of_succ_nat Pos.succ].
    split; [exact Ho|]. split; [exact Hd|].
    destruct o; cbn in Hr, He; repeat split; try lia; try congruence;
      intros; try congruence; lia.
Qed.


End ExecutorClaims.

(** C6, counterexample: with the answers y, n, n the summary need not be
    renamed = 1, errors = 0.  In a directory that cannot be written to the
    approved rename fails and the summary is renamed = 0, skipped = 2,
    errors = 1. *)
Lemma C6_failed_rename_scenario :
  exists st ap,
    Renamer.main_apply Demo.world Demo.exists_in Demo.copy2 Demo.rename
                       0 true false false Demo.changes ["y"; "n"; "n"]
                       Demo.locked
    = Done (Some (Summary 3 0 2 1, st, ap)).
Proof. eexists _, _. vm_compute. reflexivity. Qed.

Lemma C6_summary_counters_witness :
  exists s st ap,
    Renamer.main_apply Demo.world Demo.exists_in Demo.copy2 Demo.rename
                       0 true false false Demo.changes ["y"; "n"; "n"]
                       Demo.initial
    = Done (Some (s, st, ap)) /\
    exists o,
      ExecutorSpec.outcome_of Demo.world Demo.exists_in Demo.copy2 Demo.rename
                              0 false false
                              ("r/Report-123.txt", "r/Rpt-123.txt", false)
                              Demo.initial = Done (fs _ st, o) /\
      (false = true -> o = ExecutorSpec.DryRun) /\
      total_found s = 3 /\ sum_skipped s = 2 /\
      (o <> ExecutorSpec.Failed -> sum_renamed s = 1 /\ sum_errors s = 0) /\
      (o = ExecutorSpec.Failed -> sum_renamed s = 0 /\ sum_errors s = 1).
Proof.
  eexists _, _, _. split.
  - vm_compute. reflexivity.
  - eapply (proj2 (proj2 (C6_summary_counters Demo.world Demo.exists_in
                            Demo.copy2 Demo.rename))
              0%nat false false
              ("r/Report-123.txt", "r/Rpt-123.txt", false)
              ("r/Report-456.pdf", "r/Rpt-456.pdf", false)
              ("r/Reports/Report-789.txt", "r/Reports/Rpt-789.txt", false)
              Demo.initial _ _ _).
    vm_compute. reflexivity.
Defined.


(** ** Literal mode: when the directory is kept *)

Lemma has_char_replace_scan (c : ascii) (eqc : ascii -> ascii -> bool)
      (old new s : string) (skip : nat) :
  has_char c new = false -> has_char c s = false ->
  has_char c (replace_scan eqc old new skip s) = false.
Proof.
  intros Hnew. revert skip; induction s as [|x s IH]; intros skip Hs.
  - cbn. destruct skip, old; auto.
  - cbn [has_char] in Hs. apply orb_false_elim in Hs as [Hx Hs].
    cbn [replace_scan]. destruct skip as [|k]; [|now apply IH].
    destruct old as [|o old'].
    + rewrite has_char_append, Hnew. cbn [has_char orb]. rewrite Hx. now apply IH.
    + destruct (starts_with eqc (String o old') (String x s)).
      * rewrite has_char_append, Hnew. now apply IH.
      * cbn [has_char]. rewrite Hx. now apply IH.
Qed.

(** X24: in literal mode a replacement without [/] and without backslash
    keeps every planned entry in its directory: the parent directory of
    each destination is that of its source. *)
Lemma literal_plan_keeps_directory (re : engine)
      (path_exists : string -> bool) (os_walk : string -> list walk_item)
      (fuel : nat) (root find_term replace_with : string)
      (case_sensitive include_dirs : bool) (exts : list string)
      (changes : list change) (src dst : string) (is_dir : bool) :
  has_char sep replace_with = false ->
  has_char "\" replace_with = false ->
  plan_changes re path_exists os_walk fuel root find_term replace_with
               case_sensitive include_dirs exts false = Done changes ->
  In (src, dst, is_dir) changes ->
  dirname dst = dirname src.
Proof.
  intros Hsep Hbs Hplan Hin.
  destruct (planned_change _ _ _ _ _ _ _ _ _ _ _ _ _ _ _ Hplan Hin)
    as (_ & _ & new_name & Hsub & _ & Hdst).
  apply dirname_resolved in Hdst; [exact Hdst | apply split_head_is_head |].
  unfold substituted in Hsub.
  destruct (name_matches (basename src) find_term case_sensitive);
    cbn [negb] in Hsub; [|discriminate].
  assert (ci_replace (basename src) find_term replace_with case_sensitive
          = Done (replaced_literally (basename src) find_term replace_with
                                     case_sensitive)) as E.
  { destruct case_sensitive;
      [apply ci_replace_sensitive | now apply ci_replace_plain]. }
  rewrite E in Hsub. cbn [bind] in Hsub. injection Hsub as <-.
  pose proof (split_tail_no_sep src) as Hname. rewrite <- basename_split in Hname.
  unfold replaced_literally. destruct (String.eqb find_term ""); [exact Hname|].
  now apply has_char_replace_scan.
Qed.

(** ** The planner returns *)

(** [plan_changes] returns a plan when the substitution raises nothing and
    every collision is resolved within the fuel. *)
Lemma plan_changes_returns (re : engine) (path_exists : string -> bool)
      (os_walk : string -> list walk_item) (fuel : nat)
      (root find_term replace_with : string)
      (case_sensitive include_dirs : bool) (exts : list string)
      (regex : bool) :
  (forall name,
      exists r,
        substituted re find_term replace_with case_sensitive regex name
        = Done r) ->
  (forall dst,
      exists n, 1 <= n /\ (Z.to_nat n <= fuel)%nat /\
                path_exists (numbered dst n) = false) ->
  exists changes,
    plan_changes re path_exists os_walk fuel root find_term replace_with
                 case_sensitive include_dirs exts regex = Done changes.
Proof.
  intros Hsub Hfree. unfold plan_changes. apply plan_loop_done.
  intros path is_dir _. unfold plan_target.
  destruct (eligible path is_dir exts); cbn [negb]; [|eauto].
  destruct (split path) as [dirn name].
  destruct (Hsub name) as [[new_name|] ->]; cbn [bind]; [|eauto].
  destruct (String.eqb new_name name); [eauto|].
  unfold next_nonconflicting_path.
  destruct (path_exists (join dirn new_name)); cbn [negb bind]; [|eauto].
  destruct (Hfree (join dirn new_name)) as (n & Hn & Hf & Hfr).
  destruct (probe_returns path_exists (numbered (join dirn new_name)) n fuel 1)
    as [r ->]; [lia | exact Hfr | lia |].
  cbn [bind]. eauto.
Qed.

(** Case-sensitive literal substitution raises nothing. *)
Lemma substituted_sensitive_returns (re : engine)
      (find_term replace_with name : string) :
  exists r, substituted re find_term replace_with true false name = Done r.
Proof.
  unfold substituted.
  destruct (name_matches name find_term true); cbn [negb]; [|eauto].
  rewrite ci_replace_sensitive. cbn [bind]. eauto.
Qed.

(** ** The scenarios of the specification on the tree of the tests *)

Example scenario_plan :
  plan_changes literal_re Demo.path_exists Demo.walk 0 "r" "Report" "Rpt"
               false false [] false = Done Demo.changes.
Proof. reflexivity. Qed.

Example scenario_find_only :
  find_matches literal_re Demo.walk "r" "Report" false false [] false
  = [ ("r/Report-123.txt", false); ("r/Report-456.pdf", false);
      ("r/Reports/Report-789.txt", false) ].
Proof. reflexivity. Qed.

Example scenario_dirs_bypass_extensions :
  find_matches literal_re Demo.walk "r" "report" false true [".txt"] false
  = [ ("r/Reports", true); ("r/Report-123.txt", false);
      ("r/Reports/Report-789.txt", false) ].
Proof. reflexivity. Qed.

Example scenario_collision :
  plan_changes literal_re Demo.path_exists Demo.walk 1 "r" "456.pdf" "123.txt"
               true false [] false
  = Done [("r/Report-456.pdf", "r/Report-123(1).txt", false)].
Proof. reflexivity. Qed.

Example scenario_approve_each (c1 c2 c3 : change) :
  approve_loop [c1; c2; c3] ["y"; "n"; "n"]
  = Done (Approval [c1] [c1; c2; c3] []).
Proof. reflexivity. Qed.

Example scenario_reprompt (c1 : change) :
  approve_loop [c1] ["maybe"; " YES "] = Done (Approval [c1] [c1; c1] []).
Proof. reflexivity. Qed.

(** ** [posixpath] and [re] on concrete inputs *)

Example split_nested : split "a/b/c.txt" = ("a/b", "c.txt").
Proof. reflexivity. Qed.

Example split_root : split "/c.txt" = ("/", "c.txt").
Proof. reflexivity. Qed.

Example split_trailing : split "a//" = ("a", "").
Proof. reflexivity. Qed.

Example join_plain : join "a/b" "c" = "a/b/c".
Proof. reflexivity. Qed.

Example join_absolute : join "a" "/c" = "/c".
Proof. reflexivity. Qed.

Example splitext_last_dot : splitext "c.tar.gz" = ("c.tar", ".gz").
Proof. reflexivity. Qed.

Example splitext_leading_dot : splitext ".bashrc" = (".bashrc", "").
Proof. reflexivity. Qed.

Example replace_all_occurrences : replace "ab" "X" "abcabab" = "XcXX".
Proof. reflexivity. Qed.

Example escape_then_compile :
  compile literal_re (escape "a.b(1) c") true = Some (Literal "a.b(1) c" true).
Proof. reflexivity. Qed.

Example sub_whole_match :
  sub literal_re (Literal "ab" true) "<\g<0>>" "xABabAb" = Some "x<AB><ab><Ab>".
Proof. reflexivity. Qed.

Example sub_empty_pattern : sub literal_re (Literal "" true) "-" "ab" = Some "-a-b-".
Proof. reflexivity. Qed.

(** * Further properties of the code *)

(** ** Inputs: quotes, extension lists, confirmation *)

Module InputFacts.
Import PyStr PyStrFacts RenamerIO.

Lemma rstrip_snoc (s : string) (c : ascii) :
  is_space c = false -> rstrip (s ++ String c "") = s ++ String c "".
Proof.
  intros Hc. induction s as [|a s IH]; cbn [append rstrip].
  - now rewrite Hc.
  - rewrite IH. destruct s; reflexivity.
Qed.

Lemma get_append_exact (a : string) (c : ascii) (b : string) :
  String.get (String.length a) (a ++ String c b) = Some c.
Proof. induction a as [|x a IH]; [reflexivity | exact IH]. Qed.

(** What [strip_quotes] does to a text between two quotes [q]. *)
Lemma strip_quotes_between (q : ascii) (body : string) :
  is_space q = false ->
  strip (String q (body ++ String q "")) = String q (body ++ String q "") /\
  first_char (String q (body ++ String q "")) = Some q /\
  last_char (String q (body ++ String q "")) = Some q /\
  inner (String q (body ++ String q "")) = body /\
  (2 <=? String.length (String q (body ++ String q "")))%nat = true.
Proof.
  intros Hq. repeat split.
  - unfold strip. cbn [lstrip]. rewrite Hq.
    change (String q (body ++ String q "")) with (String q body ++ String q "").
    now apply rstrip_snoc.
  - unfold last_char. cbn [String.length Nat.sub]. rewrite Nat.sub_0_r.
    cbn [String.get]. destruct (String.length (body ++ String q "")) eqn:E.
    + destruct body; discriminate.
    + rewrite length_append in E. cbn [String.length] in E.
      replace n with (String.length body) by lia. apply get_append_exact.
  - unfold inner. cbn [String.length Nat.sub]. rewrite Nat.sub_0_r.
    rewrite length_append. cbn [String.length].
    replace (String.length body + 1)%nat with (S (String.length body)) by lia.
    cbn [take drop]. apply take_append_exact.
  - cbn [String.length]. rewrite length_append. cbn [String.length].
    apply Nat.leb_le. lia.
Qed.

(** X1: a text between double quotes, or between single quotes, comes
    back without them and otherwise unchanged, whatever it contains
    (blanks and further quotes included). *)
Theorem strip_quotes_quoted (body : string) :
  strip_quotes (Some (String dquote (body ++ String dquote ""))) = Some body /\
  strip_quotes (Some (String squote (body ++ String squote ""))) = Some body.
Proof.
  split.
  - destruct (strip_quotes_between dquote body eq_refl)
      as (Hs & Hf & Hl & Hi & Hn).
    unfold strip_quotes. rewrite Hs, Hn, Hf, Hl, Hi. reflexivity.
  - destruct (strip_quotes_between squote body eq_refl)
      as (Hs & Hf & Hl & Hi & Hn).
    unfold strip_quotes. rewrite Hs, Hn, Hf, Hl, Hi. reflexivity.
Qed.

(** Lower-casing *)

Lemma lower_char_idempotent (c : ascii) : lower_char (lower_char c) = lower_char c.
Proof. destruct c as [[] [] [] [] [] [] [] []]; reflexivity. Qed.

Lemma lower_idempotent (s : string) : lower (lower s) = lower s.
Proof.
  induction s as [|c s IH]; [reflexivity|].
  cbn [lower]. now rewrite lower_char_idempotent, IH.
Qed.

Lemma caseless_comma : caseless ",".
Proof. intros a. destruct a as [[] [] [] [] [] [] [] []]; reflexivity. Qed.

Lemma caseless_dot : caseless ".".
Proof. intros a. destruct a as [[] [] [] [] [] [] [] []]; reflexivity. Qed.

Lemma caseless_slash : caseless "/".
Proof. intros a. destruct a as [[] [] [] [] [] [] [] []]; reflexivity. Qed.

Lemma has_char_lower (c : ascii) (s : string) :
  caseless c -> has_char c (lower s) = has_char c s.
Proof.
  intros Hc. induction s as [|a s IH]; [reflexivity|].
  cbn [lower has_char]. now rewrite Hc, IH.
Qed.

(** Stripping removes characters at the two ends only. *)
Lemma has_char_lstrip (c : ascii) (s : string) :
  has_char c s = false -> has_char c (lstrip s) = false.
Proof.
  induction s as [|a s IH]; [reflexivity|].
  intros H. cbn [lstrip]. destruct (is_space a); [|exact H].
  cbn [has_char] in H. apply orb_false_elim in H as [_ H]. now apply IH.
Qed.

Lemma has_char_rstrip (c : ascii) (s : string) :
  has_char c s = false -> has_char c (rstrip s) = false.
Proof.
  induction s as [|a s IH]; [reflexivity|].
  intros H. cbn [has_char] in H. apply orb_false_elim in H as [Ha H].
  specialize (IH H). cbn [rstrip].
  destruct (rstrip s) as [|b r].
  - destruct (is_space a); [reflexivity|]. cbn [has_char]. now rewrite Ha.
  - cbn [has_char] in *. now rewrite Ha.
Qed.

Lemma has_char_strip (c : ascii) (s : string) :
  has_char c s = false -> has_char c (strip s) = false.
Proof. intros H. unfold strip. now apply has_char_rstrip, has_char_lstrip. Qed.

(** The pieces of [s.split(c)] have no [c]. *)
Lemma split_on_no_sep (c : ascii) (s piece : string) :
  In piece (split_on c s) -> has_char c piece = false.
Proof.
  revert piece; induction s as [|a s IH]; intros piece H.
  - destruct H as [<- | []]. reflexivity.
  - cbn [split_on] in H. destruct (Ascii.eqb a c) eqn:E.
    + destruct H as [<- | H]; [reflexivity | now apply IH].
    + destruct (split_on c s) as [|h t].
      * destruct H as [<- | []]. cbn [has_char]. now rewrite E.
      * destruct H as [<- | H].
        -- cbn [has_char]. rewrite E. apply IH. now left.
        -- apply IH. now right.
Qed.

(** X2: every extension of [normalize_exts] starts with a dot, is in lower
    case and has no comma; in particular it is not empty. *)
Theorem normalize_exts_normal (ext_str e : string) :
  In e (normalize_exts ext_str) ->
  startswith "." e = true /\ lower e = e /\ has_char "," e = false.
Proof.
  unfold normalize_exts. destruct (String.eqb ext_str ""); [intros []|].
  intros H. apply in_map_iff in H as (e0 & <- & H).
  apply in_map_iff in H as (e1 & <- & H).
  apply filter_In in H as [H _]. apply split_on_no_sep in H.
  apply has_char_strip in H.
  repeat split.
  - destruct (startswith "." (strip e1)) eqn:E; [|reflexivity].
    destruct (strip e1) as [|a r]; [discriminate|].
    unfold startswith in E. cbn [starts_with] in E.
    apply andb_prop in E as [Ea _]. apply Ascii.eqb_eq in Ea. subst a.
    reflexivity.
  - apply lower_idempotent.
  - rewrite has_char_lower by apply caseless_comma.
    destruct (startswith "." (strip e1)); [exact H|].
    cbn [has_char]. now rewrite H.
Qed.

Lemma normalize_exts_normal_witness :
  normalize_exts " PDF, .Txt,, " = [".pdf"; ".txt"] /\
  startswith "." ".pdf" = true /\ lower ".pdf" = ".pdf" /\
  has_char "," ".pdf" = false.
Proof.
  split; [reflexivity|].
  apply (normalize_exts_normal " PDF, .Txt,, " ".pdf").
  left. reflexivity.
Defined.

(** X3: [confirm_plan] returns the first line of the input that, stripped
    and lower-cased, is one of y, yes, n, no, a, c; it returns that answer
    and the lines after it, and every line before it was no answer. *)
Theorem confirm_plan_first_answer (inputs : list string) (ans : string)
        (rest : list string) :
  confirm_plan inputs = Done (ans, rest) ->
  In ans plan_answers /\
  exists before line,
    inputs = (before ++ line :: rest)%list /\
    ans = lower (strip line) /\
    forall l, In l before -> in_list (lower (strip l)) plan_answers = false.
Proof.
  induction inputs as [|line more IH]; cbn [confirm_plan]; [discriminate|].
  destruct (in_list (lower (strip line)) plan_answers) eqn:E.
  - intros H. injection H as <- <-. split.
    + unfold in_list in E. apply existsb_exists in E as (x & Hx & Ex).
      apply String.eqb_eq in Ex. now subst x.
    + exists [], line. repeat split. intros l [].
  - intros H. destruct (IH H) as (Hin & before & l0 & -> & -> & Hb).
    split; [exact Hin|]. exists (line :: before), l0. repeat split.
    intros l [<- | Hl]; [exact E | now apply Hb].
Qed.

Lemma confirm_plan_first_answer_witness :
  In "a" plan_answers /\
  exists before line,
    ["maybe"; " A "; "y"] = (before ++ line :: ["y"])%list /\
    "a" = lower (strip line) /\
    forall l, In l before -> in_list (lower (strip l)) plan_answers = false.
Proof.
  apply (confirm_plan_first_answer ["maybe"; " A "; "y"] "a" ["y"]).
  reflexivity.
Defined.

(** X4: when no line of the input is an answer, [confirm_plan] ends with
    the [EOFError] of [input()]: it never returns an answer of its own. *)
Theorem confirm_plan_no_answer (inputs : list string) :
  (forall l, In l inputs -> in_list (lower (strip l)) plan_answers = false) ->
  confirm_plan inputs = Raised EOFError.
Proof.
  induction inputs as [|line more IH]; intros H; [reflexivity|].
  cbn [confirm_plan]. rewrite (H line (or_introl eq_refl)).
  apply IH. intros l Hl. apply H. now right.
Qed.

Lemma confirm_plan_no_answer_witness :
  confirm_plan ["ok"; "sure"] = Raised EOFError.
Proof.
  apply (confirm_plan_no_answer ["ok"; "sure"]).
  intros l [<- | [<- | []]]; reflexivity.
Defined.

End InputFacts.

(** ** Matcher and extension filter *)

Module MatchFacts.
Import PyStr PyStrFacts PosixPath PosixPathFacts PyRe Renamer RenamerIO
       InputFacts MatcherFacts.

Lemma startswith_lower (p s : string) :
  startswith p s = true -> startswith (lower p) (lower s) = true.
Proof.
  unfold startswith. revert s; induction p as [|a p IH]; intros [|b s];
    cbn [starts_with lower]; try easy.
  intros H. apply andb_prop in H as [Hab H]. apply Ascii.eqb_eq in Hab.
  subst b. now rewrite Ascii.eqb_refl, IH.
Qed.

Lemma contains_lower (p s : string) :
  contains p s = true -> contains (lower p) (lower s) = true.
Proof.
  induction s as [|b s IH]; cbn [contains lower].
  - rewrite !orb_false_r. apply (startswith_lower p "").
  - intros H. apply orb_prop in H as [H | H].
    + pose proof (startswith_lower p (String b s) H) as E.
      cbn [lower] in E. now rewrite E.
    + rewrite (IH H). apply orb_true_r.
Qed.

(** X5: on names and find terms of ASCII characters, a name that matches
    case-sensitively matches case-insensitively; so, in literal mode with
    such a find term, the case-insensitive search reports every entry with
    an ASCII base name that the case-sensitive one reports. *)
Theorem case_sensitive_matches_are_insensitive :
  (forall name term,
      is_ascii name = true -> is_ascii term = true ->
      name_matches name term true = true ->
      name_matches name term false = true) /\
  (forall re os_walk root find_term include_dirs exts path is_dir,
      is_ascii find_term = true -> is_ascii (basename path) = true ->
      In (path, is_dir)
         (find_matches re os_walk root find_term true include_dirs exts false) ->
      In (path, is_dir)
         (find_matches re os_walk root find_term false include_dirs exts false)).
Proof.
  assert (forall name term,
             name_matches name term true = true ->
             name_matches name term false = true) as Hname.
  { intros name term. unfold name_matches.
    destruct (String.eqb term ""); [easy|]. apply contains_lower. }
  split; [intros name term _ _; apply Hname|].
  intros re os_walk root find_term include_dirs exts path is_dir _ _.
  unfold find_matches. rewrite !filter_In. intros [Hin H]. split; [exact Hin|].
  destruct (eligible path is_dir exts); cbn [negb] in *; [|discriminate].
  now apply Hname.
Qed.

Lemma case_sensitive_matches_are_insensitive_witness :
  name_matches "Report-123.txt" "Report" false = true.
Proof.
  apply (proj1 case_sensitive_matches_are_insensitive "Report-123.txt" "Report").
  - reflexivity.
  - reflexivity.
  - reflexivity.
Defined.

(** Without an occurrence of [old] the scan copies the text. *)
Lemma replace_absent (old new s : string) :
  old <> "" -> contains old s = false -> replace old new s = s.
Proof.
  intros Hold. unfold replace. induction s as [|c s IH]; intros H.
  - cbn. now destruct old.
  - cbn [contains] in H. apply orb_false_elim in H as [Hs H].
    cbn [replace_scan]. destruct old as [|o old']; [contradiction|].
    unfold startswith in Hs. rewrite Hs. now rewrite IH.
Qed.

Lemma lit_sub_scan_absent (old : string) (t : list titem) (s : string) :
  old <> "" -> contains (lower old) (lower s) = false ->
  lit_sub_scan (Literal old true) t O s = s.
Proof.
  intros Hold. induction s as [|c s IH]; intros H.
  - cbn. now destruct old.
  - change (lower (String c s)) with (String (lower_char c) (lower s)) in H.
    cbn [contains] in H. apply orb_false_elim in H as [Hs H].
    cbn [lit_sub_scan lit_chars lit_icase].
    destruct old as [|o old']; [contradiction|].
    rewrite starts_with_lower.
    change (lower (String c s)) with (String (lower_char c) (lower s)).
    rewrite Hs. now rewrite IH.
Qed.

(** X6: the replacement agrees with the match test.  In case-sensitive
    mode, and in case-insensitive mode on a name and a find term of ASCII
    characters: on a name that [name_matches] rejects, [ci_replace] returns
    the name unchanged whenever it returns, and it does return in
    case-sensitive mode. *)
Theorem ci_replace_without_match (name term repl : string)
        (case_sensitive : bool) :
  case_sensitive = true \/ (is_ascii name = true /\ is_ascii term = true) ->
  name_matches name term case_sensitive = false ->
  (forall r, ci_replace name term repl case_sensitive = Done r -> r = name) /\
  (case_sensitive = true ->
   ci_replace name term repl case_sensitive = Done name).
Proof.
  intros _ H.
  assert (case_sensitive = true ->
          ci_replace name term repl case_sensitive = Done name) as Hcs.
  { intros ->. unfold ci_replace, name_matches in *.
    destruct (String.eqb_spec term "") as [|Hne]; [reflexivity|].
    now rewrite replace_absent. }
  split; [|exact Hcs].
  destruct case_sensitive.
  - intros r Hr. rewrite (Hcs eq_refl) in Hr. now injection Hr.
  - intros r. unfold name_matches in H.
    destruct (String.eqb_spec term "") as [-> | Hne].
    + cbn. intros Hr. now injection Hr.
    + rewrite ci_replace_insensitive by exact Hne.
      destruct (template repl) as [t|]; [|discriminate].
      rewrite lit_sub_scan_absent by assumption.
      intros Hr. now injection Hr.
Qed.

Lemma ci_replace_without_match_witness :
  (forall r, ci_replace "draft_note.txt" "Report" "Rpt" false = Done r ->
             r = "draft_note.txt") /\
  (false = true ->
   ci_replace "draft_note.txt" "Report" "Rpt" false = Done "draft_note.txt").
Proof.
  apply (ci_replace_without_match "draft_note.txt" "Report" "Rpt" false).
  - right. split; reflexivity.
  - reflexivity.
Defined.

(** Lower-casing a path keeps its separators and dots in place. *)
Lemma rfind_from_lower (c : ascii) (s : string) (i last : Z) :
  caseless c -> rfind_from c (lower s) i last = rfind_from c s i last.
Proof.
  intros Hc. revert i last; induction s as [|a s IH]; intros i last;
    [reflexivity|].
  cbn [lower rfind_from]. now rewrite Hc, IH.
Qed.

Lemma take_lower (n : nat) (s : string) : take n (lower s) = lower (take n s).
Proof.
  revert s; induction n as [|n IH]; intros [|a s]; try reflexivity.
  cbn [lower take]. now rewrite IH.
Qed.

Lemma drop_lower (n : nat) (s : string) : drop n (lower s) = lower (drop n s).
Proof.
  revert s; induction n as [|n IH]; intros [|a s]; try reflexivity.
  cbn [lower drop]. apply IH.
Qed.

Lemma not_all_dots_lower (s : string) : not_all_dots (lower s) = not_all_dots s.
Proof.
  induction s as [|a s IH]; [reflexivity|].
  cbn [lower not_all_dots]. unfold extsep. now rewrite caseless_dot, IH.
Qed.

Lemma splitext_lower (p : string) :
  splitext (lower p) = (lower (fst (splitext p)), lower (snd (splitext p))).
Proof.
  unfold splitext, rfind, slice_to, slice_from.
  rewrite !rfind_from_lower by (apply caseless_slash || apply caseless_dot).
  rewrite !drop_lower, !take_lower, not_all_dots_lower.
  destruct (_ && _); reflexivity.
Qed.

(** X7: the extension filter does not look at the case of the path: a
    path of ASCII characters and its lower-cased form are eligible
    together, for every extension list. *)
Theorem eligible_ignores_case (path : string) (is_dir : bool)
        (exts : list string) :
  is_ascii path = true ->
  eligible (lower path) is_dir exts = eligible path is_dir exts.
Proof.
  intros _. unfold eligible. destruct is_dir; [reflexivity|].
  destruct exts as [|e exts]; [reflexivity|].
  rewrite splitext_lower. destruct (splitext path) as [root ext].
  cbn [fst snd]. now rewrite lower_idempotent.
Qed.

Lemma eligible_ignores_case_witness :
  eligible (lower "r/Notes.d/REPORT.TXT") false [".txt"]
  = eligible "r/Notes.d/REPORT.TXT" false [".txt"] /\
  eligible "r/Notes.d/REPORT.TXT" false [".txt"] = true.
Proof.
  split; [|reflexivity].
  apply (eligible_ignores_case "r/Notes.d/REPORT.TXT" false [".txt"]).
  reflexivity.
Defined.

End MatchFacts.

(** ** Collision resolver: the extension is kept *)

Module ExtensionFacts.
Import PyStr PyStrFacts PosixPath PosixPathFacts Renamer ResolverFacts.

Lemma append_nil_r (s : string) : s ++ "" = s.
Proof. induction s as [|a s IH]; cbn; [reflexivity | now rewrite IH]. Qed.

Lemma string_of_uint_no_dot (d : Decimal.uint) :
  has_char "." (NilEmpty.string_of_uint d) = false.
Proof. induction d; simpl; auto. Qed.

Lemma str_of_int_no_dot (i : Z) : has_char "." (str_of_int i) = false.
Proof.
  unfold str_of_int, NilZero.string_of_int, NilZero.string_of_uint.
  destruct (Z.to_int i) as [d|d]; destruct d; simpl;
    try reflexivity; apply string_of_uint_no_dot.
Qed.

Lemma not_all_dots_append (a b : string) :
  not_all_dots (a ++ b) = not_all_dots a || not_all_dots b.
Proof.
  induction a as [|x a IH]; [reflexivity|].
  cbn [append not_all_dots]. now rewrite IH, orb_assoc.
Qed.

(** [splitext] on a name without separator. *)
Lemma splitext_no_dot (p : string) :
  has_char sep p = false -> has_char extsep p = false ->
  splitext p = (p, "").
Proof.
  intros Hs Hd. unfold splitext.
  rewrite (rfind_absent _ _ Hs), (rfind_absent _ _ Hd). reflexivity.
Qed.

Lemma splitext_at_last_dot (a b : string) :
  has_char sep (a ++ String extsep b) = false -> has_char extsep b = false ->
  splitext (a ++ String extsep b)
  = if not_all_dots a then (a, String extsep b)
    else (a ++ String extsep b, "").
Proof.
  intros Hs Hd. unfold splitext.
  rewrite (rfind_absent _ _ Hs), (rfind_last _ _ _ Hd).
  unfold slice_to, slice_from.
  replace (Z.to_nat (Z.of_nat (String.length a) - (-1 + 1)))
    with (String.length a) by lia.
  replace (Z.to_nat (-1 + 1)) with O by reflexivity.
  rewrite Nat2Z.id. cbn [drop].
  rewrite take_append_exact, drop_append_exact.
  replace (-1 <? Z.of_nat (String.length a)) with true
    by (symmetry; apply Z.ltb_lt; lia).
  reflexivity.
Qed.

(** The numbered candidate of a name: its stem is the stem of the name
    followed by the number, its extension is that of the name. *)
Lemma splitext_numbered (name : string) (i : Z) :
  has_char sep name = false ->
  splitext (fst (splitext name) ++ "(" ++ str_of_int i ++ ")"
            ++ snd (splitext name))
  = (fst (splitext name) ++ "(" ++ str_of_int i ++ ")", snd (splitext name)).
Proof.
  intros Hs.
  pose proof (numbered_name_no_sep name i Hs) as Hc.
  assert (has_char extsep ("(" ++ str_of_int i ++ ")") = false) as Hnum.
  { rewrite !has_char_append. unfold extsep. now rewrite str_of_int_no_dot. }
  destruct (last_occurrence extsep name) as [Hd | (a & b & -> & Hb)].
  - rewrite (splitext_no_dot name Hs Hd) in *. cbn [fst snd] in *.
    rewrite splitext_no_dot.
    + now rewrite !append_nil_r.
    + exact Hc.
    + rewrite has_char_append, Hd. rewrite append_nil_r. exact Hnum.
  - rewrite (splitext_at_last_dot a b Hs Hb) in *.
    destruct (not_all_dots a) eqn:Ea; cbn [fst snd] in *.
    + replace (a ++ "(" ++ str_of_int i ++ ")" ++ String extsep b)
        with ((a ++ "(" ++ str_of_int i ++ ")") ++ String extsep b) in *
        by (now rewrite !append_assoc).
      rewrite splitext_at_last_dot by assumption.
      now rewrite not_all_dots_append, Ea.
    + replace ((a ++ String extsep b) ++ "(" ++ str_of_int i ++ ")" ++ "")
        with (a ++ String extsep (b ++ "(" ++ str_of_int i ++ ")")) in *
        by (now rewrite !append_assoc, !append_nil_r).
      rewrite splitext_at_last_dot.
      * rewrite Ea. now rewrite !append_assoc.
      * exact Hc.
      * rewrite has_char_append, Hb. exact Hnum.
Qed.

(** X8: collision resolution keeps the extension.  When the desired path
    is a directory joined to a name without separator, the base name of the
    resolved path has the extension of that name, and its stem starts with
    the stem of that name. *)
Theorem resolved_keeps_extension (path_exists : string -> bool) (fuel : nat)
        (d n r : string) :
  is_head d -> has_char sep n = false ->
  next_nonconflicting_path path_exists fuel (join d n) = Done r ->
  snd (splitext (basename r)) = snd (splitext n) /\
  exists suffix, fst (splitext (basename r)) = fst (splitext n) ++ suffix.
Proof.
  intros Hd Hn. unfold next_nonconflicting_path.
  destruct (path_exists (join d n)); cbn [negb]; intros H.
  - apply probe_first_free in H as (k & _ & -> & _).
    rewrite numbered_join by assumption.
    rewrite basename_split, split_join
      by (assumption || now apply numbered_name_no_sep).
    cbn [snd]. rewrite splitext_numbered by exact Hn. cbn [fst snd].
    split; [reflexivity|]. now exists ("(" ++ str_of_int k ++ ")").
  - injection H as <-.
    rewrite basename_split, split_join by assumption. cbn [snd].
    split; [reflexivity|]. exists "". now rewrite append_nil_r.
Qed.

Lemma resolved_keeps_extension_witness :
  snd (splitext (basename "d/a(2).txt")) = snd (splitext "a.txt") /\
  exists suffix,
    fst (splitext (basename "d/a(2).txt")) = fst (splitext "a.txt") ++ suffix.
Proof.
  apply (resolved_keeps_extension Demo.crowded 2 "d" "a.txt" "d/a(2).txt").
  - right. reflexivity.
  - reflexivity.
  - reflexivity.
Defined.

End ExtensionFacts.

(** ** Planner: what a plan contains *)

Module PlanFacts.
Import PyStr PosixPath PosixPathFacts PyRe Renamer RenamerIO ResolverFacts
       PlannerFacts PlanMatchFacts.

Lemma subsequence_length {A : Type} (xs ys : list A) :
  subsequence xs ys -> (List.length xs <= List.length ys)%nat.
Proof. induction 1; cbn; lia. Qed.

Lemma iter_targets_files_only (os_walk : string -> list walk_item)
      (root path : string) (is_dir : bool) :
  In (path, is_dir) (iter_targets os_walk root false) -> is_dir = false.
Proof.
  unfold iter_targets. intros H. apply in_flat_map in H as (item & _ & H).
  destruct item as [[dirpath dirnames] filenames]. cbn [app] in H.
  apply in_map_iff in H as (f & E & _). now injection E.
Qed.

Lemma resolved_is_free (path_exists : string -> bool) (fuel : nat)
      (dst r : string) :
  next_nonconflicting_path path_exists fuel dst = Done r ->
  path_exists r = false.
Proof.
  unfold next_nonconflicting_path.
  destruct (path_exists dst) eqn:E; cbn [negb]; intros H.
  - now apply probe_first_free in H as (k & _ & -> & Hf & _).
  - now injection H as <-.
Qed.

Section Plans.
Variable re : engine.
Variable path_exists : string -> bool.
Variable os_walk : string -> list walk_item.
Variables (fuel : nat) (root find_term replace_with : string).
Variables (case_sensitive : bool) (exts : list string) (regex : bool).

(** X9: without [--include-dirs] no directory is reported or planned:
    every entry of [find_matches] and every change of [plan_changes] has
    its directory flag off. *)
Theorem files_only_by_default :
  (forall path is_dir,
      In (path, is_dir)
         (find_matches re os_walk root find_term case_sensitive false exts
                       regex) ->
      is_dir = false) /\
  (forall changes src dst is_dir,
      plan_changes re path_exists os_walk fuel root find_term replace_with
                   case_sensitive false exts regex = Done changes ->
      In (src, dst, is_dir) changes -> is_dir = false).
Proof.
  split.
  - intros path is_dir H. unfold find_matches in H.
    apply filter_In in H as [H _]. now apply iter_targets_files_only in H.
  - intros changes src dst is_dir Hplan Hin.
    destruct (planned_change _ _ _ _ _ _ _ _ _ _ _ _ _ _ _ Hplan Hin)
      as (H & _). now apply iter_targets_files_only in H.
Qed.

(** X10: no destination of a plan exists when the plan is made: for
    every change of [plan_changes], [os.path.exists] is false on its
    destination. *)
Theorem planned_destination_is_free (include_dirs : bool)
        (changes : list change) (src dst : string) (is_dir : bool) :
  plan_changes re path_exists os_walk fuel root find_term replace_with
               case_sensitive include_dirs exts regex = Done changes ->
  In (src, dst, is_dir) changes ->
  path_exists dst = false.
Proof.
  intros Hplan Hin.
  destruct (planned_change _ _ _ _ _ _ _ _ _ _ _ _ _ _ _ Hplan Hin)
    as (_ & _ & new_name & _ & _ & Hdst).
  now apply resolved_is_free in Hdst.
Qed.

(** The test of [find_matches] on one target. *)
Lemma planned_target_matches (path : string) (is_dir : bool) (c : change) :
  plan_target re path_exists find_term replace_with case_sensitive exts regex
              fuel path is_dir = Done (Some c) ->
  fst (fst c) = path /\ snd c = is_dir /\
  (if negb (eligible path is_dir exts) then false
   else
     if regex then
       match compile re find_term (negb case_sensitive) with
       | Some rx => search re rx (basename path)
       | None => false
       end
     else name_matches (basename path) find_term case_sensitive) = true.
Proof.
  intros H. apply plan_target_planned in H
    as (new_name & dst & -> & Hel & Hsub & _ & _).
  repeat split. rewrite Hel. cbn [negb].
  exact (substituted_matches _ _ _ _ _ _ _ Hsub).
Qed.

(** X11: the plan follows the order of the matches.  The sources of the
    plan, with their directory flags, are the entries of [find_matches]
    with some left out (the no-op renames) and the order kept; so the plan
    is never longer than the list of matches. *)
Theorem plan_follows_matches (include_dirs : bool) (changes : list change) :
  plan_changes re path_exists os_walk fuel root find_term replace_with
               case_sensitive include_dirs exts regex = Done changes ->
  subsequence (map (fun c : change => (fst (fst c), snd c)) changes)
              (find_matches re os_walk root find_term case_sensitive
                            include_dirs exts regex) /\
  (List.length changes
   <= List.length (find_matches re os_walk root find_term case_sensitive
                                include_dirs exts regex))%nat.
Proof.
  intros Hplan.
  assert (subsequence (map (fun c : change => (fst (fst c), snd c)) changes)
            (find_matches re os_walk root find_term case_sensitive
                          include_dirs exts regex)) as Hsub.
  { unfold plan_changes, find_matches in *.
    revert changes Hplan.
    induction (iter_targets os_walk root include_dirs) as [|[path is_dir] rest IH];
      intros changes Hplan.
    - injection Hplan as <-. constructor.
    - cbn [plan_loop] in Hplan.
      destruct (plan_target _ _ _ _ _ _ _ _ path is_dir) as [r| |] eqn:E;
        cbn [bind] in Hplan; try discriminate.
      destruct (plan_loop _ _ _ _ _ _ _ _ rest) as [more| |] eqn:E';
        cbn [bind] in Hplan; try discriminate.
      injection Hplan as <-. specialize (IH more eq_refl).
      cbn [filter]. destruct r as [c|].
      + apply planned_target_matches in E as (Hp & Hd & Hm).
        rewrite Hm. cbn [map]. rewrite Hp, Hd. now constructor.
      + match goal with |- context [if ?b then _ else _] => destruct b end;
          [now constructor | exact IH]. }
  split; [exact Hsub|].
  apply subsequence_length in Hsub. now rewrite length_map in Hsub.
Qed.

(** X12: a pattern that does not compile stops nothing: in regex mode
    [find_matches] reports no entry and [plan_changes] returns the empty
    plan, without raising. *)
Theorem invalid_pattern_plans_nothing (include_dirs : bool) :
  compile re find_term (negb case_sensitive) = None ->
  find_matches re os_walk root find_term case_sensitive include_dirs exts true
  = [] /\
  plan_changes re path_exists os_walk fuel root find_term replace_with
               case_sensitive include_dirs exts true = Done [].
Proof.
  intros Hc. unfold find_matches, plan_changes. rewrite Hc.
  induction (iter_targets os_walk root include_dirs) as [|[path is_dir] rest IH].
  - now split.
  - destruct IH as [IHf IHp]. split.
    + cbn [filter]. rewrite IHf. now destruct (negb (eligible path is_dir exts)).
    + cbn [plan_loop]. rewrite IHp. unfold plan_target.
      destruct (eligible path is_dir exts); [|reflexivity]. cbn [negb].
      destruct (split path) as [dirn name].
      unfold substituted, regex_replace_name. rewrite Hc. reflexivity.
Qed.

End Plans.

Lemma files_only_by_default_witness :
  In ("r/Report-123.txt", false)
     (find_matches literal_re Demo.walk "r" "report" false false [] false) /\
  false = false.
Proof.
  assert (In ("r/Report-123.txt", false)
             (find_matches literal_re Demo.walk "r" "report" false false []
                           false)) as H by (left; reflexivity).
  split; [exact H|].
  exact (proj1 (files_only_by_default literal_re Demo.path_exists Demo.walk
                  0 "r" "report" "Rpt" false [] false)
               "r/Report-123.txt" false H).
Defined.

Lemma planned_destination_is_free_witness :
  Demo.path_exists "r/Report-123(1).txt" = false.
Proof.
  apply (planned_destination_is_free literal_re Demo.path_exists Demo.walk
           1 "r" "456.pdf" "123.txt" true [] false false
           [("r/Report-456.pdf", "r/Report-123(1).txt", false)]
           "r/Report-456.pdf" "r/Report-123(1).txt" false).
  - vm_compute. reflexivity.
  - left. reflexivity.
Defined.

Lemma plan_follows_matches_witness :
  subsequence
    (map (fun c : change => (fst (fst c), snd c))
         [ ("r/Report-123.txt", "r/report-123.txt", false);
           ("r/Report-456.pdf", "r/report-456.pdf", false);
           ("r/Reports/Report-789.txt", "r/Reports/report-789.txt", false) ])
    (find_matches literal_re Demo.walk "r" "r" false false [] false) /\
  (3 <= List.length
          (find_matches literal_re Demo.walk "r" "r" false false [] false))%nat.
Proof.
  apply (plan_follows_matches literal_re Demo.path_exists Demo.walk
           0 "r" "r" "r" false [] false false).
  vm_compute. reflexivity.
Defined.

Lemma invalid_pattern_plans_nothing_witness :
  find_matches literal_re Demo.walk "r" "(" false true [] true = [] /\
  plan_changes literal_re Demo.path_exists Demo.walk 0 "r" "(" "x"
               false true [] true = Done [].
Proof.
  apply (invalid_pattern_plans_nothing literal_re Demo.path_exists Demo.walk
           0 "r" "(" "x" false [] true).
  reflexivity.
Defined.

End PlanFacts.

(** ** Approval loop: what is asked and what is applied *)

Module ApprovalFacts.
Import Renamer RenamerIO.

(** The inner loop reads at least one line, and only raises at the end of
    the input; what it read and what it left are the input. *)
Lemma ask_reads (inputs : list string) :
  ask inputs = Raised EOFError \/
  exists a n read rest,
    ask inputs = Done (a, n, rest) /\ (1 <= n)%nat /\
    inputs = (read ++ rest)%list /\ List.length read = n.
Proof.
  induction inputs as [|line more IH]; [now left|].
  cbn [ask].
  destruct (_ || _);
    [right; exists Yes, 1%nat, [line], more; repeat split; lia|].
  destruct (_ || _);
    [right; exists No, 1%nat, [line], more; repeat split; lia|].
  destruct (String.eqb _ "q");
    [right; exists Quit, 1%nat, [line], more; repeat split; lia|].
  destruct IH as [-> | (a & n & read & rest & -> & Hn & -> & Hl)]; [now left|].
  right. exists a, (S n), (line :: read), rest. cbn [bind List.length].
  repeat split; lia.
Qed.

(** What the approval loop keeps, asks and reads. *)
Lemma approve_loop_kept (changes : list change) (inputs : list string)
      (ap : approval) :
  approve_loop changes inputs = Done ap ->
  subsequence (to_apply ap) changes /\
  incl changes (prompted ap) /\
  exists read,
    inputs = (read ++ unread ap)%list /\
    List.length read = List.length (prompted ap).
Proof.
  revert inputs ap; induction changes as [|c rest IH]; intros inputs ap H.
  - injection H as <-. cbn. repeat split; [constructor | intros x [] |].
    now exists [].
  - cbn [approve_loop] in H.
    destruct (ask_reads inputs)
      as [E | (a & n & read & inputs' & E & Hn & Hin & Hl)];
      rewrite E in H; cbn [bind] in H; [discriminate|].
    destruct (approve_loop rest inputs') as [more| |] eqn:E';
      cbn [bind] in H; try discriminate.
    injection H as <-.
    destruct (IH _ _ E') as (Hsub & Hincl & read' & Hin' & Hl').
    cbn [to_apply prompted unread]. repeat split.
    + destruct a; now constructor.
    + intros x [<- | Hx].
      * apply in_or_app. left. destruct n; [lia | now left].
      * apply in_or_app. right. now apply Hincl.
    + exists (read ++ read')%list. split.
      * now rewrite Hin, Hin', app_assoc.
      * rewrite !length_app, repeat_length. lia.
Qed.

(** X13: the approval loop applies nothing it was not given, in the order
    given, asks about every change at least once, and accounts for every
    line it read: the input is the lines it read, one for each prompt,
    followed by the lines it left unread. *)
Theorem approve_loop_accounts (changes : list change) (inputs : list string)
        (ap : approval) :
  approve_loop changes inputs = Done ap ->
  subsequence (to_apply ap) changes /\
  incl changes (prompted ap) /\
  exists read,
    inputs = (read ++ unread ap)%list /\
    List.length read = List.length (prompted ap).
Proof. apply approve_loop_kept. Qed.

Lemma approve_loop_accounts_witness :
  subsequence [("b", "B", false)] [("a", "A", false); ("b", "B", false)] /\
  incl [("a", "A", false); ("b", "B", false)]
       [("a", "A", false); ("a", "A", false); ("b", "B", false)] /\
  exists read,
    ["what"; "n"; "yes"; "spare"] = (read ++ ["spare"])%list /\
    List.length read
    = List.length [("a", "A", false); ("a", "A", false); ("b", "B", false)].
Proof.
  apply (approve_loop_accounts
           [("a", "A", false); ("b", "B", false)]
           ["what"; "n"; "yes"; "spare"]
           (Approval [("b", "B", false)]
                     [("a", "A", false); ("a", "A", false); ("b", "B", false)]
                     ["spare"])).
  reflexivity.
Defined.

(** X14: when the input has fewer lines than there are changes, the
    approval loop ends with [EOFError]: it returns no partial approval. *)
Theorem approve_loop_short_input (changes : list change)
        (inputs : list string) :
  (List.length inputs < List.length changes)%nat ->
  approve_loop changes inputs = Raised EOFError.
Proof.
  revert inputs; induction changes as [|c rest IH]; intros inputs H.
  - inversion H.
  - cbn [approve_loop].
    destruct (ask_reads inputs)
      as [-> | (a & n & read & inputs' & -> & Hn & -> & Hl)]; [reflexivity|].
    cbn [bind]. rewrite IH; [reflexivity|].
    cbn [List.length] in H. rewrite length_app in H. lia.
Qed.

Lemma approve_loop_short_input_witness :
  approve_loop [("a", "A", false); ("b", "B", false)] ["y"] = Raised EOFError.
Proof.
  apply (approve_loop_short_input [("a", "A", false); ("b", "B", false)] ["y"]).
  cbn. lia.
Defined.

Lemma ask_counts_yes (inputs : list string) (a : answer) (n : nat)
      (rest : list string) :
  ask inputs = Done (a, n, rest) ->
  List.length (List.filter is_yes inputs)
  = ((match a with Yes => 1 | _ => 0 end)
     + List.length (List.filter is_yes rest))%nat.
Proof.
  revert a n rest; induction inputs as [|line more IH]; intros a n rest;
    cbn [ask]; [discriminate|].
  cbn [List.filter]. unfold is_yes at 1. cbv zeta.
  destruct (String.eqb (lower (strip line)) "y"
            || String.eqb (lower (strip line)) "yes").
  - intros H. injection H as <- <- <-. reflexivity.
  - destruct (_ || _); [intros H; injection H as <- <- <-; reflexivity|].
    destruct (String.eqb _ "q"); [intros H; injection H as <- <- <-; reflexivity|].
    destruct (ask more) as [[[a0 n0] r0]| |]; cbn [bind]; try discriminate.
    intros H. injection H as <- <- <-. now apply IH with (n := n0).
Qed.

(** X17: nothing is applied without a yes.  The changes the approval
    loop hands to the executor are no more than the lines of the input
    that read y or yes (blanks and case aside); with no such line nothing
    is applied. *)
Theorem approve_loop_needs_yes (changes : list change) (inputs : list string)
        (ap : approval) :
  approve_loop changes inputs = Done ap ->
  (List.length (to_apply ap) <= List.length (List.filter is_yes inputs))%nat /\
  ((forall l, In l inputs -> is_yes l = false) -> to_apply ap = []).
Proof.
  intros H.
  assert (List.length (to_apply ap)
          <= List.length (List.filter is_yes inputs))%nat as Hle.
  { revert inputs ap H; induction changes as [|c rest IH]; intros inputs ap H.
    - injection H as <-. cbn. lia.
    - cbn [approve_loop] in H.
      destruct (ask inputs) as [[[a n] inputs']| |] eqn:E; cbn [bind] in H;
        try discriminate.
      destruct (approve_loop rest inputs') as [more| |] eqn:E';
        cbn [bind] in H; try discriminate.
      injection H as <-. apply ask_counts_yes in E. specialize (IH _ _ E').
      cbn [to_apply]. destruct a; cbn [List.length]; lia. }
  split; [exact Hle|]. intros Hno.
  assert (List.filter is_yes inputs = []) as E.
  { clear -Hno. induction inputs as [|l more IH]; [reflexivity|].
    cbn [List.filter]. rewrite (Hno l (or_introl eq_refl)).
    apply IH. intros x Hx. apply Hno. now right. }
  rewrite E in Hle. destruct (to_apply ap); [reflexivity | cbn in Hle; lia].
Qed.

Lemma approve_loop_needs_yes_witness :
  (List.length [("b", "B", false)]
   <= List.length (List.filter is_yes ["what"; "n"; "yes"; "spare"]))%nat /\
  ((forall l, In l ["what"; "n"; "yes"; "spare"] -> is_yes l = false) ->
   [("b", "B", false)] = []).
Proof.
  apply (approve_loop_needs_yes
           [("a", "A", false); ("b", "B", false)]
           ["what"; "n"; "yes"; "spare"]
           (Approval [("b", "B", false)]
                     [("a", "A", false); ("a", "A", false); ("b", "B", false)]
                     ["spare"])).
  reflexivity.
Defined.

End ApprovalFacts.

(** ** Executor: what it calls and when *)

Module ExecutionFacts.
Import Renamer RenamerIO ResolverFacts ExecutorFacts.

Lemma backup_path_is_free (path_exists : string -> bool) (fuel : nat)
      (src bk : string) :
  backup_nonconflicting_path path_exists fuel src = Done bk ->
  path_exists bk = false.
Proof.
  unfold backup_nonconflicting_path.
  destruct (path_exists (src ++ ".bak")) eqn:E; cbn [negb]; intros H.
  - now apply probe_first_free in H as (k & _ & -> & Hf & _).
  - now injection H as <-.
Qed.

Ltac in_cases :=
  repeat match goal with
         | H : In _ [] |- _ => destruct H
         | H : In _ (_ :: _) |- _ => destruct H as [H | H]
         end.

(** The calls among the events of an item are for that item. *)
Lemma item_events_calls (dry_run backup : bool) (c : change)
      (evs : list event) :
  item_events dry_run backup c evs ->
  (forall src dst, In (CallRename src dst) evs ->
                   dry_run = false /\ exists is_dir, c = (src, dst, is_dir)) /\
  (forall src bk, In (CallCopy2 src bk) evs ->
                  dry_run = false /\ backup = true /\
                  exists dst, c = (src, dst, false)).
Proof.
  destruct 1; split; intros s0 x Hin; in_cases; subst;
    try discriminate; in_cases; try discriminate;
    match goal with
    | E : CallRename _ _ = CallRename _ _ |- _ => injection E as <- <-
    | E : CallCopy2 _ _ = CallCopy2 _ _ |- _ => injection E as <- <-
    end; eauto.
Qed.

Section Exec.
Variable world : Type.
Variable exists_in : world -> string -> bool.
Variable copy2 : string -> string -> world -> world * option os_error.
Variable rename : string -> string -> world -> world * option os_error.

Local Abbreviation execute_one :=
  (Renamer.execute_one world exists_in copy2 rename).
Local Abbreviation execute :=
  (Renamer.execute world exists_in copy2 rename).
Local Abbreviation main_apply :=
  (Renamer.main_apply world exists_in copy2 rename).

(** The events of one item, and what a dry run and a backup leave. *)
Lemma execute_one_events (fuel : nat) (dry_run backup : bool) (c : change)
      (st st' : state world) :
  execute_one fuel dry_run backup c st = Done st' ->
  exists evs,
    trace _ st' = (trace _ st ++ evs)%list /\
    item_events dry_run backup c evs /\
    (dry_run = true -> fs _ st' = fs _ st) /\
    (forall src bk, In (CallCopy2 src bk) evs ->
                    exists_in (fs _ st) bk = false).
Proof.
  destruct c as [[src dst] is_dir], st as [w [r s e] tr].
  unfold Renamer.execute_one. cbn [fs count trace].
  assert (forall l : event,
             In l [LogRenamed src dst; LogNotFound src dst;
                   LogPermission src dst; LogError src dst] ->
             forall s0 b, In (CallCopy2 s0 b) [CallRename src dst; l] -> False)
    as Hnocopy.
  { intros l Hl s0 b [E | [E | []]]; [discriminate|]. subst l.
    destruct Hl as [E | [E | [E | [E | []]]]]; discriminate. }
  destruct dry_run.
  - destruct (backup && negb is_dir) eqn:Eb.
    + apply andb_prop in Eb as [-> Ed]. destruct is_dir; [discriminate|].
      destruct (backup_nonconflicting_path _ _ _) as [bk| |];
        cbn [bind]; try discriminate.
      intros H; injection H as <-.
      exists [LogDryRunBackup src bk; LogDryRun src dst].
      cbn. rewrite <- app_assoc. repeat split; try easy.
      * now constructor.
      * intros s0 b [E | [E | []]]; discriminate.
    + cbn [bind]. intros H; injection H as <-.
      exists [LogDryRun src dst]. cbn. repeat split; try easy.
      * now constructor.
      * intros s0 b [E | []]; discriminate.
  - destruct (backup && negb is_dir) eqn:Eb.
    + apply andb_prop in Eb as [-> Ed]. destruct is_dir; [discriminate|].
      destruct (backup_nonconflicting_path _ _ _) as [bk| |] eqn:Ebk;
        cbn [bind]; try discriminate.
      apply backup_path_is_free in Ebk.
      destruct (copy2 src bk w) as [w1 [err|]]; cbn [bind negb].
      * intros H; injection H as <-.
        exists [CallCopy2 src bk; LogBackupFailed src bk].
        cbn. rewrite <- app_assoc. repeat split; try easy.
        -- now constructor.
        -- intros s0 b [E | [E | []]]; [|discriminate].
           injection E as <- <-. exact Ebk.
      * cbn [emit fs count trace].
        assert (forall l : event,
                   In l [LogRenamed src dst; LogNotFound src dst;
                         LogPermission src dst; LogError src dst] ->
                   item_events false true (src, dst, false)
                     [CallCopy2 src bk; LogBackup src bk; CallRename src dst; l]
                   /\ forall s0 b,
                       In (CallCopy2 s0 b)
                          [CallCopy2 src bk; LogBackup src bk;
                           CallRename src dst; l] ->
                       exists_in w b = false) as Hshape.
        { intros l Hl. split; [now constructor|].
          intros s0 b [E | [E | Hin]];
            [injection E as <- <-; exact Ebk | discriminate |].
          destruct (Hnocopy l Hl s0 b Hin). }
        destruct (rename src dst w1) as [w2 [[| |]|]];
          intros H; injection H as <-;
          [ exists [CallCopy2 src bk; LogBackup src bk; CallRename src dst;
                    LogNotFound src dst]
          | exists [CallCopy2 src bk; LogBackup src bk; CallRename src dst;
                    LogPermission src dst]
          | exists [CallCopy2 src bk; LogBackup src bk; CallRename src dst;
                    LogError src dst]
          | exists [CallCopy2 src bk; LogBackup src bk; CallRename src dst;
                    LogRenamed src dst] ];
          cbn [fs trace add_renamed add_error emit count];
          rewrite <- !app_assoc;
          (split; [reflexivity|]);
          (split; [apply Hshape; cbn; tauto|]);
          (split; [discriminate | apply Hshape; cbn; tauto]).
    + cbn [bind negb emit fs count trace].
      destruct (rename src dst w) as [w2 [[| |]|]];
        intros H; injection H as <-;
        [ exists [CallRename src dst; LogNotFound src dst]
        | exists [CallRename src dst; LogPermission src dst]
        | exists [CallRename src dst; LogError src dst]
        | exists [CallRename src dst; LogRenamed src dst] ];
        cbn [fs trace add_renamed add_error emit count];
        rewrite <- !app_assoc;
        (split; [reflexivity|]);
        (split; [constructor; (reflexivity || assumption || (cbn; tauto))|]);
        (split; [discriminate|]);
        intros s0 b Hin; exfalso; revert Hin; apply Hnocopy; cbn; tauto.
Qed.

(** The events of a run are those of its items, in order. *)
Lemma execute_events (fuel : nat) (dry_run backup : bool) (cs : list change)
      (st st' : state world) (P : list event -> Prop) :
  P [] ->
  (forall c evs more,
      In c cs -> item_events dry_run backup c evs -> P more ->
      P (evs ++ more)%list) ->
  execute fuel dry_run backup cs st = Done st' ->
  exists evs, trace _ st' = (trace _ st ++ evs)%list /\ P evs /\
              (dry_run = true -> fs _ st' = fs _ st).
Proof.
  intros Hnil Hstep. revert st; induction cs as [|c cs IH]; intros st H.
  - injection H as <-. exists []. rewrite app_nil_r. now repeat split.
  - cbn [Renamer.execute] in H.
    destruct (execute_one fuel dry_run backup c st) as [st1| |] eqn:E;
      cbn [bind] in H; try discriminate.
    apply execute_one_events in E as (evs & Htr & Hev & Hfs & _).
    destruct IH with (st := st1) as (more & Htr' & HP & Hfs');
      [ intros c0 e0 m0 Hc0 He0 Hm0;
        apply (Hstep c0 e0 m0); [now right | exact He0 | exact Hm0]
      | exact H |].
    exists (evs ++ more)%list. rewrite Htr', Htr, app_assoc.
    repeat split.
    + apply (Hstep c evs more); [now left | exact Hev | exact HP].
    + intros D. now rewrite (Hfs' D), (Hfs D).
Qed.

(** The events of a dry-run item: no call, and one DRY-RUN record. *)
Lemma item_events_dry_run (backup : bool) (c : change) (evs : list event) :
  item_events true backup c evs ->
  (forall e, In e evs -> is_call e = false) /\
  List.filter is_dry_run evs = [LogDryRun (fst (fst c)) (snd (fst c))].
Proof.
  intros H. inversion H; subst; try discriminate; split; try reflexivity;
    intros e He; in_cases; subst; reflexivity.
Qed.

(** X15: a dry run only writes log records.  With [--dry-run] the executor
    calls neither [shutil.copy2] nor [os.rename]; what it does is hand
    records to the logs, among them one DRY-RUN record for each item, in
    the order of the items; every item counts as renamed and none as an
    error. *)
Theorem dry_run_only_logs (fuel : nat) (backup : bool)
        (cs : list change) (st st' : state world) :
  execute fuel true backup cs st = Done st' ->
  (exists evs,
      trace _ st' = (trace _ st ++ evs)%list /\
      (forall e, In e evs -> is_call e = false) /\
      List.filter is_dry_run evs
      = map (fun c : change => LogDryRun (fst (fst c)) (snd (fst c))) cs) /\
  renamed (count _ st') = renamed (count _ st) + Z.of_nat (List.length cs) /\
  errors (count _ st') = errors (count _ st).
Proof.
  revert st; induction cs as [|c cs IH]; intros st H.
  - injection H as <-. split; [|cbn; lia].
    exists []. rewrite app_nil_r. repeat split. intros e [].
  - cbn [Renamer.execute] in H.
    destruct (execute_one fuel true backup c st) as [st1| |] eqn:E;
      cbn [bind] in H; try discriminate.
    pose proof (execute_one_effect _ _ _ _ _ _ _ _ _ _ E)
      as (_ & _ & _ & _ & _ & Hsum & Hdry).
    specialize (Hdry eq_refl).
    apply execute_one_events in E as (evs & Htr & Hev & _).
    apply item_events_dry_run in Hev as [Hcalls Hdr].
    destruct (IH st1 H) as ((more & Htr' & Hcalls' & Hdr') & Hr & He).
    split; [|cbn [List.length]; lia].
    exists (evs ++ more)%list. rewrite Htr', Htr, app_assoc.
    repeat split.
    + intros e He0. apply in_app_or in He0 as [He0 | He0];
        [now apply Hcalls | now apply Hcalls'].
    + rewrite filter_app, Hdr, Hdr'. reflexivity.
Qed.

(** The calls of a run are for its items. *)
Lemma execute_calls (fuel : nat) (dry_run backup : bool)
      (cs : list change) (st st' : state world) :
  execute fuel dry_run backup cs st = Done st' ->
  exists evs,
    trace _ st' = (trace _ st ++ evs)%list /\
    (forall src dst, In (CallRename src dst) evs ->
                     dry_run = false /\ exists is_dir, In (src, dst, is_dir) cs) /\
    (forall src bk, In (CallCopy2 src bk) evs ->
                    dry_run = false /\ backup = true /\
                    exists dst, In (src, dst, false) cs).
Proof.
  intros H.
  destruct (execute_events fuel dry_run backup cs st st'
              (fun evs =>
                 (forall src dst, In (CallRename src dst) evs ->
                    dry_run = false /\ exists is_dir, In (src, dst, is_dir) cs) /\
                 (forall src bk, In (CallCopy2 src bk) evs ->
                    dry_run = false /\ backup = true /\
                    exists dst, In (src, dst, false) cs)))
    as (evs & Htr & HP & _); [split; intros ? ? [] | | exact H |].
  { intros c evs more Hc Hev [Hr Hb].
    destruct (item_events_calls _ _ _ _ Hev) as [Hr0 Hb0]. split.
    - intros src dst Hin. apply in_app_or in Hin as [Hin | Hin];
        [|now apply Hr].
      destruct (Hr0 _ _ Hin) as (D & d & ->). split; [exact D | now exists d].
    - intros src bk Hin. apply in_app_or in Hin as [Hin | Hin];
        [|exact (Hb _ _ Hin)].
      destruct (Hb0 _ _ Hin) as (D & B & dst & ->).
      repeat split; try assumption. now exists dst. }
  exists evs. split; [exact Htr | exact HP].
Qed.

(** X16: whatever the flags, the executor only renames what it was given:
    every call of [os.rename] is for the source and the destination of one
    of the changes, and every call of [shutil.copy2] is for the source of
    a change that is not a directory, in a run with [--backup] and without
    [--dry-run]. *)
Theorem executor_calls_are_planned (fuel : nat) (dry_run backup : bool)
        (cs : list change) (st st' : state world) :
  execute fuel dry_run backup cs st = Done st' ->
  exists evs,
    trace _ st' = (trace _ st ++ evs)%list /\
    (forall src dst, In (CallRename src dst) evs ->
                     dry_run = false /\ exists is_dir, In (src, dst, is_dir) cs) /\
    (forall src bk, In (CallCopy2 src bk) evs ->
                    dry_run = false /\ backup = true /\
                    exists dst, In (src, dst, false) cs).
Proof. apply execute_calls. Qed.

(** Each item ends in one outcome. *)
Lemma item_events_one_outcome (dry_run backup : bool) (c : change)
      (evs : list event) :
  item_events dry_run backup c evs ->
  count_events is_success evs + count_events is_dry_run evs
  + count_events is_failed evs = 1.
Proof.
  destruct 1; try reflexivity; in_cases; subst; reflexivity.
Qed.

(** X18: every item the executor handles ends in exactly one outcome: in
    the events of a run the successful renames, the dry runs and the
    failures are, together, as many as the items. *)
Theorem one_outcome_per_item (fuel : nat) (dry_run backup : bool)
        (cs : list change) (st st' : state world) :
  execute fuel dry_run backup cs st = Done st' ->
  exists evs,
    trace _ st' = (trace _ st ++ evs)%list /\
    count_events is_success evs + count_events is_dry_run evs
    + count_events is_failed evs = Z.of_nat (List.length cs).
Proof.
  revert st; induction cs as [|c cs IH]; intros st H.
  - injection H as <-. exists []. now rewrite app_nil_r.
  - cbn [Renamer.execute] in H.
    destruct (execute_one fuel dry_run backup c st) as [st1| |] eqn:E;
      cbn [bind] in H; try discriminate.
    apply execute_one_events in E as (evs & Htr & Hev & _).
    apply item_events_one_outcome in Hev.
    destruct (IH st1 H) as (more & Htr' & Hn).
    exists (evs ++ more)%list. rewrite Htr', Htr, app_assoc.
    split; [reflexivity|]. rewrite !count_events_app. cbn [List.length]. lia.
Qed.



End Exec.

End ExecutionFacts.

(** ** A run of [main]: only approved changes are renamed *)

Module RunFacts.
Import Renamer RenamerIO ExecutorFacts ApprovalFacts ExecutionFacts.


Section Run.
Variable world : Type.
Variable exists_in : world -> string -> bool.
Variable copy2 : string -> string -> world -> world * option os_error.
Variable rename : string -> string -> world -> world * option os_error.

Local Abbreviation main_apply :=
  (Renamer.main_apply world exists_in copy2 rename).


End Run.


Lemma dry_run_only_logs_witness :
  exists st',
    Renamer.execute Demo.world Demo.exists_in Demo.copy2 Demo.rename
                    1 true true Demo.changes
                    (State _ Demo.initial (Counters 0 0 0) []) = Done st' /\
    ((exists evs,
         trace _ st'
         = (trace _ (State _ Demo.initial (Counters 0 0 0) []) ++ evs)%list /\
         (forall e, In e evs -> is_call e = false) /\
         List.filter is_dry_run evs
         = map (fun c : change => LogDryRun (fst (fst c)) (snd (fst c)))
               Demo.changes) /\
     renamed (count _ st')
     = renamed (count _ (State _ Demo.initial (Counters 0 0 0) []))
       + Z.of_nat (List.length Demo.changes) /\
     errors (count _ st')
     = errors (count _ (State _ Demo.initial (Counters 0 0 0) []))).
Proof.
  eexists. split.
  - vm_compute. reflexivity.
  - apply (dry_run_only_logs Demo.world Demo.exists_in Demo.copy2
             Demo.rename 1 true Demo.changes
             (State _ Demo.initial (Counters 0 0 0) [])).
    vm_compute. reflexivity.
Defined.

Lemma executor_calls_are_planned_witness :
  exists st',
    Renamer.execute Demo.world Demo.exists_in Demo.copy2 Demo.rename
                    1 false true Demo.changes
                    (State _ Demo.initial (Counters 0 0 0) []) = Done st' /\
    exists evs,
      trace _ st'
      = (trace _ (State _ Demo.initial (Counters 0 0 0) []) ++ evs)%list /\
      (forall src dst, In (CallRename src dst) evs ->
                       false = false /\
                       exists is_dir, In (src, dst, is_dir) Demo.changes) /\
      (forall src bk, In (CallCopy2 src bk) evs ->
                      false = false /\ true = true /\
                      exists dst, In (src, dst, false) Demo.changes).
Proof.
  eexists. split.
  - vm_compute. reflexivity.
  - apply (executor_calls_are_planned Demo.world Demo.exists_in Demo.copy2
             Demo.rename 1 false true Demo.changes
             (State _ Demo.initial (Counters 0 0 0) [])).
    vm_compute. reflexivity.
Defined.

Lemma one_outcome_per_item_witness :
  exists st',
    Renamer.execute Demo.world Demo.exists_in Demo.copy2 Demo.rename
                    1 false true Demo.changes
                    (State _ Demo.locked (Counters 0 0 0) []) = Done st' /\
    exists evs,
      trace _ st'
      = (trace _ (State _ Demo.locked (Counters 0 0 0) []) ++ evs)%list /\
      count_events is_success evs + count_events is_dry_run evs
      + count_events is_failed evs = Z.of_nat (List.length Demo.changes).
Proof.
  eexists. split.
  - vm_compute. reflexivity.
  - apply (one_outcome_per_item Demo.world Demo.exists_in Demo.copy2
             Demo.rename 1 false true Demo.changes
             (State _ Demo.locked (Counters 0 0 0) [])).
    vm_compute. reflexivity.
Defined.


End RunFacts.

(** ** Log files *)

Module LogFacts.
Import PyStr PyStrFacts PosixPath PosixPathFacts Renamer RenamerIO
       ResolverFacts ExtensionFacts.

Lemma probe_ext (path_exists : string -> bool) (c1 c2 : Z -> string) :
  (forall i, c1 i = c2 i) ->
  forall fuel i, probe path_exists c1 fuel i = probe path_exists c2 fuel i.
Proof.
  intros H fuel; induction fuel as [|fuel IH]; intros i; [reflexivity|].
  cbn [probe]. rewrite H, IH. reflexivity.
Qed.

Lemma join_suffix (d n : string) : exists pre, join d n = pre ++ n.
Proof.
  unfold join. destruct (startswith "/" n); [now exists ""|].
  destruct (_ || _); [now exists d|].
  exists (d ++ String sep ""). now rewrite append_assoc.
Qed.

Lemma last_char_snoc (s : string) (c : ascii) :
  last_char (s ++ String c "") = Some c.
Proof.
  unfold last_char. rewrite length_append. cbn [String.length].
  replace (String.length s + 1 - 1)%nat with (String.length s) by lia.
  apply InputFacts.get_append_exact.
Qed.

Lemma last_char_cons (a : ascii) (s : string) :
  s <> "" -> last_char (String a s) = last_char s.
Proof.
  intros H. unfold last_char. destruct s as [|b s]; [contradiction|].
  cbn [String.length Nat.sub String.get]. now rewrite !Nat.sub_0_r.
Qed.

Lemma last_char_append_some (x y : string) (c : ascii) :
  last_char y = Some c -> last_char (x ++ y) = Some c.
Proof.
  intros H. induction x as [|a x IH]; [exact H|].
  cbn [append]. rewrite last_char_cons; [exact IH|].
  intros E. rewrite E in IH. discriminate.
Qed.

Section Logs.
Variable world : Type.
Variable exists_in : world -> string -> bool.
Variable append_to : string -> string -> world -> world * bool.

Local Abbreviation ensure_dated_log :=
  (RenamerIO.ensure_dated_log world exists_in append_to).
Local Abbreviation ensure_log_file :=
  (RenamerIO.ensure_log_file world exists_in append_to).
Local Abbreviation ensure_json_log_file :=
  (RenamerIO.ensure_json_log_file world exists_in append_to).
Local Abbreviation create_log := (RenamerIO.create_log world append_to).

(** The loop of the log files is the loop of the collision resolver,
    followed by one attempt to create the file. *)
Lemma log_probe_is_probe (base_dir base_name : string) (w : world)
      (fuel : nat) (i : Z) :
  log_probe world exists_in append_to base_dir base_name fuel i w
  = (p <- probe (exists_in w) (log_trial base_dir base_name) fuel i ;;
     Done (create_log p w)).
Proof.
  revert i; induction fuel as [|fuel IH]; intros i; [reflexivity|].
  cbn [log_probe probe].
  destruct (exists_in w (log_trial base_dir base_name i)); cbn [negb];
    [apply IH | reflexivity].
Qed.

Lemma ensure_dated_log_resolved (ext : string) (fuel : nat)
      (date_str base_dir : string) (w w' : world) (r : option string) :
  is_head base_dir ->
  has_char sep ("renamed." ++ date_str ++ ext) = false ->
  ensure_dated_log ext fuel date_str base_dir w = Done (w', r) ->
  exists p,
    next_nonconflicting_path (exists_in w) fuel
      (join base_dir ("renamed." ++ date_str ++ ext)) = Done p /\
    exists_in w p = false /\
    (w', r) = create_log p w.
Proof.
  intros Hd Hn. unfold RenamerIO.ensure_dated_log, next_nonconflicting_path.
  set (base_name := "renamed." ++ date_str ++ ext) in *.
  destruct (exists_in w (join base_dir base_name)) eqn:E; cbn [negb].
  - rewrite log_probe_is_probe.
    rewrite (probe_ext (exists_in w) (log_trial base_dir base_name)
                       (numbered (join base_dir base_name))).
    + destruct (probe _ _ fuel 1) as [p| |] eqn:Ep; cbn [bind];
        try discriminate.
      intros H. injection H as H. exists p. split; [reflexivity|].
      split; [|now symmetry].
      now apply probe_first_free in Ep as (k & _ & -> & Hf & _).
    + intros i. rewrite numbered_join by assumption.
      unfold log_trial. now destruct (splitext base_name).
  - intros H. injection H as H. exists (join base_dir base_name).
    split; [reflexivity|]. split; [exact E | now symmetry].
Qed.

(** X21: a log file never takes the place of an existing file, and its
    name is the one the collision resolver gives.  Both for the text log
    and for the JSON log, in a directory [base_dir] as [split] returns
    them and for a date without separator: the path chosen is the result
    of [next_nonconflicting_path] on the dated name, it did not exist, and
    the function makes one attempt to create it, returning it on success
    and [None] otherwise. *)
Theorem log_file_is_resolved (fuel : nat) (date_str base_dir : string)
        (w w' : world) (r : option string) :
  is_head base_dir -> has_char sep date_str = false ->
  (ensure_log_file fuel date_str base_dir w = Done (w', r) ->
   exists p,
     next_nonconflicting_path (exists_in w) fuel
       (join base_dir ("renamed." ++ date_str ++ ".txt")) = Done p /\
     exists_in w p = false /\ (w', r) = create_log p w) /\
  (ensure_json_log_file fuel date_str base_dir w = Done (w', r) ->
   exists p,
     next_nonconflicting_path (exists_in w) fuel
       (join base_dir ("renamed." ++ date_str ++ ".jsonl")) = Done p /\
     exists_in w p = false /\ (w', r) = create_log p w).
Proof.
  intros Hd Hs. split; apply ensure_dated_log_resolved; try assumption;
    rewrite !has_char_append, Hs; reflexivity.
Qed.

(** The dated name splits at its last dot. *)
Lemma splitext_dated (date_str ext : string) :
  has_char sep date_str = false -> has_char sep ext = false ->
  has_char extsep ext = false ->
  splitext ("renamed." ++ date_str ++ String extsep ext)
  = ("renamed." ++ date_str, String extsep ext).
Proof.
  intros Hs He Hd.
  replace ("renamed." ++ date_str ++ String extsep ext)
    with (("renamed." ++ date_str) ++ String extsep ext)
    by (now rewrite append_assoc).
  rewrite splitext_at_last_dot; [reflexivity | | exact Hd].
  rewrite !has_char_append, Hs. cbn [has_char]. now rewrite He.
Qed.

(** The path of a dated log ends with the last character of its
    extension. *)
Lemma ensure_dated_log_last_char (ext0 : string) (c : ascii) (fuel : nat)
      (date_str base_dir : string) (w w' : world) (p : string) :
  has_char sep date_str = false ->
  has_char sep (ext0 ++ String c "") = false ->
  has_char extsep (ext0 ++ String c "") = false ->
  ensure_dated_log (String extsep (ext0 ++ String c "")) fuel date_str
                   base_dir w = Done (w', Some p) ->
  last_char p = Some c.
Proof.
  intros Hs He Hd. unfold RenamerIO.ensure_dated_log.
  assert (forall q r, RenamerIO.create_log world append_to q w = (w', Some r) ->
                      r = q) as Hcreate.
  { intros q r. unfold RenamerIO.create_log.
    destruct (append_to q "" w) as [w0 []]; intros E; now injection E. }
  assert (last_char (String extsep (ext0 ++ String c "")) = Some c) as Hlast.
  { change (String extsep (ext0 ++ String c ""))
      with (String extsep ext0 ++ String c "").
    apply last_char_snoc. }
  destruct (exists_in w _); cbn [negb].
  - rewrite log_probe_is_probe.
    destruct (probe _ _ fuel 1) as [q| |] eqn:Ep; cbn [bind]; try discriminate.
    intros H. injection H as H. apply Hcreate in H. subst q.
    apply probe_first_free in Ep as (k & _ & -> & _).
    unfold log_trial. rewrite splitext_dated by assumption.
    destruct (join_suffix base_dir
                (("renamed." ++ date_str) ++ "(" ++ str_of_int k ++ ")"
                 ++ String extsep (ext0 ++ String c ""))) as [pre ->].
    now repeat apply last_char_append_some.
  - intros H. injection H as H. apply Hcreate in H. subst p.
    match goal with
    | |- last_char (join ?d ?n) = _ => destruct (join_suffix d n) as [pre ->]
    end.
    change (last_char (pre ++ "renamed." ++ date_str
                       ++ String extsep (ext0 ++ String c "")) = Some c).
    now repeat apply last_char_append_some.
Qed.

(** X22: the text log and the JSON log never share a file: whatever the
    directories, the dates (without separator) and the states of the file
    system, a path returned by [ensure_log_file] differs from a path
    returned by [ensure_json_log_file]. *)
Theorem text_and_json_logs_differ (fuel1 fuel2 : nat)
        (date1 date2 dir1 dir2 : string) (w1 w1' w2 w2' : world)
        (p1 p2 : string) :
  has_char sep date1 = false -> has_char sep date2 = false ->
  ensure_log_file fuel1 date1 dir1 w1 = Done (w1', Some p1) ->
  ensure_json_log_file fuel2 date2 dir2 w2 = Done (w2', Some p2) ->
  p1 <> p2.
Proof.
  intros H1 H2 E1 E2.
  apply (ensure_dated_log_last_char "tx" "t") in E1; try easy.
  apply (ensure_dated_log_last_char "json" "l") in E2; try easy.
  intros ->. rewrite E1 in E2. discriminate.
Qed.

(** X23: [write_log_line] writes one line.  The text handed to the file
    ends with one line feed: a line given with its line feed is written
    like the line without it, the text of a line without line feed is the
    line followed by a line feed, and what precedes the final line feed
    does not end with one. *)
Theorem write_log_line_one_line (log_path : option string) (line : string)
        (w : world) :
  RenamerIO.write_log_line world append_to log_path
                           (line ++ String newline "") w
  = RenamerIO.write_log_line world append_to log_path line w /\
  ends_with_char newline (log_text line) = true /\
  ends_with_char newline (rstrip_char newline line) = false /\
  (has_char newline line = false -> log_text line = line ++ String newline "").
Proof.
  unfold RenamerIO.write_log_line, log_text. repeat split.
  - now rewrite rstrip_char_snoc.
  - clear. induction (rstrip_char newline line) as [|a s IH]; [reflexivity|].
    cbn [append ends_with_char]. destruct (s ++ String newline "") eqn:E;
      [destruct s; discriminate | exact IH].
  - apply rstrip_char_no_end.
  - intros H. f_equal. apply rstrip_char_keeps.
    clear -H. induction line as [|a s IH]; [reflexivity|].
    cbn [has_char] in H. apply orb_false_elim in H as [Ha Hs].
    cbn [ends_with_char]. destruct s; [exact Ha | now apply IH].
Qed.

End Logs.

Lemma log_file_is_resolved_witness :
  (RenamerIO.ensure_log_file DemoLogs.world DemoLogs.exists_in
                             DemoLogs.append_to 2 "11.04.2026" "logs"
                             DemoLogs.second_run
   = Done (DemoLogs.World ("logs/renamed.11.04.2026(2).txt"
                            :: DemoLogs.existing DemoLogs.second_run) "ro",
           Some "logs/renamed.11.04.2026(2).txt") ->
   exists p,
     next_nonconflicting_path (DemoLogs.exists_in DemoLogs.second_run) 2
       (join "logs" ("renamed." ++ "11.04.2026" ++ ".txt")) = Done p /\
     DemoLogs.exists_in DemoLogs.second_run p = false /\
     (DemoLogs.World ("logs/renamed.11.04.2026(2).txt"
                       :: DemoLogs.existing DemoLogs.second_run) "ro",
      Some "logs/renamed.11.04.2026(2).txt")
     = RenamerIO.create_log DemoLogs.world DemoLogs.append_to p
                            DemoLogs.second_run) /\
  RenamerIO.ensure_log_file DemoLogs.world DemoLogs.exists_in
                            DemoLogs.append_to 2 "11.04.2026" "logs"
                            DemoLogs.second_run
  = Done (DemoLogs.World ("logs/renamed.11.04.2026(2).txt"
                           :: DemoLogs.existing DemoLogs.second_run) "ro",
          Some "logs/renamed.11.04.2026(2).txt").
Proof.
  split.
  - apply (log_file_is_resolved DemoLogs.world DemoLogs.exists_in
             DemoLogs.append_to 2 "11.04.2026" "logs" DemoLogs.second_run).
    + right. reflexivity.
    + reflexivity.
  - reflexivity.
Defined.

Lemma write_log_line_one_line_witness :
  RenamerIO.write_log_line DemoLogs.world DemoLogs.append_to (Some "logs/a.txt")
                           ("RENAMED: a -> b" ++ String newline "")
                           DemoLogs.second_run
  = RenamerIO.write_log_line DemoLogs.world DemoLogs.append_to
                             (Some "logs/a.txt") "RENAMED: a -> b"
                             DemoLogs.second_run /\
  ends_with_char newline (log_text "RENAMED: a -> b") = true /\
  ends_with_char newline (rstrip_char newline "RENAMED: a -> b") = false /\
  (has_char newline "RENAMED: a -> b" = false ->
   log_text "RENAMED: a -> b" = "RENAMED: a -> b" ++ String newline "").
Proof.
  apply (write_log_line_one_line DemoLogs.world DemoLogs.append_to
           (Some "logs/a.txt") "RENAMED: a -> b" DemoLogs.second_run).
Defined.

Lemma text_and_json_logs_differ_witness :
  "logs/renamed.11.04.2026(2).txt" <> "logs/renamed.11.04.2026.jsonl".
Proof.
  apply (text_and_json_logs_differ DemoLogs.world DemoLogs.exists_in
           DemoLogs.append_to 2 0 "11.04.2026" "11.04.2026" "logs" "logs"
           DemoLogs.second_run
           (DemoLogs.World ("logs/renamed.11.04.2026(2).txt"
                             :: DemoLogs.existing DemoLogs.second_run) "ro")
           DemoLogs.second_run
           (DemoLogs.World ("logs/renamed.11.04.2026.jsonl"
                             :: DemoLogs.existing DemoLogs.second_run) "ro")).
  - reflexivity.
  - reflexivity.
  - reflexivity.
  - reflexivity.
Defined.

End LogFacts.

(** ** Literal mode: what the user can rely on *)

Module LiteralFacts.
Import PyStr PosixPath PyRe Renamer RenamerIO MatcherFacts.

Lemma literal_plan_keeps_directory_witness :
  dirname "r/Reports/Rpt-789.txt" = dirname "r/Reports/Report-789.txt".
Proof.
  apply (literal_plan_keeps_directory literal_re Demo.path_exists Demo.walk
           0 "r" "Report" "Rpt" false false [] Demo.changes
           "r/Reports/Report-789.txt" "r/Reports/Rpt-789.txt" false).
  - reflexivity.
  - reflexivity.
  - vm_compute. reflexivity.
  - right; right; left. reflexivity.
Defined.

(** X25: planning in case-sensitive literal mode raises nothing: it
    returns a plan as soon as, for every path, some numbered candidate
    within the bound of the probing loop does not exist. *)
Theorem plan_changes_sensitive_returns (re : engine)
        (path_exists : string -> bool) (os_walk : string -> list walk_item)
        (fuel : nat) (root find_term replace_with : string)
        (include_dirs : bool) (exts : list string) :
  (forall dst,
      exists n, 1 <= n /\ (Z.to_nat n <= fuel)%nat /\
                path_exists (numbered dst n) = false) ->
  exists changes,
    plan_changes re path_exists os_walk fuel root find_term replace_with
                 true include_dirs exts false = Done changes.
Proof.
  intros H. apply plan_changes_returns; [|exact H].
  intros name. apply substituted_sensitive_returns.
Qed.

(** The numbered candidates of a path differ in their numbers only. *)
Lemma append_inv_l (a b c : string) : a ++ b = a ++ c -> b = c.
Proof.
  induction a as [|x a IH]; cbn [append]; intros H; [exact H|].
  injection H as H. now apply IH.
Qed.

Lemma join_before_paren (d root : string) :
  exists pre, forall tail,
      join d (root ++ String "(" tail) = pre ++ String "(" tail.
Proof.
  unfold join, startswith.
  destruct root as [|c root].
  - cbn [append starts_with]. change (Ascii.eqb "/" "(") with false.
    cbn [andb]. destruct (String.eqb d "" || ends_with_char sep d).
    + now exists d.
    + exists (d ++ String sep ""). intros tail.
      now rewrite PyStrFacts.append_assoc.
  - cbn [append starts_with]. destruct (Ascii.eqb "/" c); cbn [andb].
    + exists (String c root). reflexivity.
    + destruct (String.eqb d "" || ends_with_char sep d).
      * exists (d ++ String c root). intros tail.
        now rewrite PyStrFacts.append_assoc.
      * exists (d ++ String sep (String c root)). intros tail.
        now rewrite PyStrFacts.append_assoc.
Qed.

Lemma numbered_shape (dst : string) :
  exists pre ext, forall i,
      numbered dst i = pre ++ String "(" (str_of_int i ++ ")" ++ ext).
Proof.
  unfold numbered. destruct (split dst) as [dirn name].
  destruct (splitext name) as [root ext].
  destruct (join_before_paren dirn root) as [pre Hpre].
  exists pre, ext. intros i. apply Hpre.
Qed.

(** Among the first seven candidates of a path one is free in the tree of
    the tests, which has six paths. *)
Lemma demo_candidate_free (dst : string) :
  exists n, 1 <= n /\ (Z.to_nat n <= 7)%nat /\
            Demo.path_exists (numbered dst n) = false.
Proof.
  set (ks := [1; 2; 3; 4; 5; 6; 7]).
  assert (forall k, In k ks -> 1 <= k /\ (Z.to_nat k <= 7)%nat) as Hks.
  { intros k Hk. cbn in Hk.
    repeat (destruct Hk as [<- | Hk]; [split; [lia | cbn; lia]|]).
    destruct Hk. }
  destruct (existsb (fun k => negb (Demo.path_exists (numbered dst k))) ks)
    eqn:E.
  - apply existsb_exists in E as (k & Hk & Hfree).
    exists k. destruct (Hks k Hk) as [H1 H7]. repeat split; try assumption.
    now destruct (Demo.path_exists (numbered dst k)).
  - exfalso.
    assert (incl (map (numbered dst) ks) Demo.paths) as Hincl.
    { intros p Hp. apply in_map_iff in Hp as (k & <- & Hk).
      destruct (Demo.path_exists (numbered dst k)) eqn:Ek.
      - unfold Demo.path_exists, in_list in Ek.
        apply existsb_exists in Ek as (q & Hq & Eq).
        apply String.eqb_eq in Eq. now subst q.
      - assert (existsb (fun k => negb (Demo.path_exists (numbered dst k))) ks
                = true) as C
          by (apply existsb_exists; exists k; split; [exact Hk | now rewrite Ek]).
        rewrite C in E. discriminate. }
    assert (NoDup (map (numbered dst) ks)) as Hnd.
    { destruct (numbered_shape dst) as (pre & ext & Hshape).
      apply NoDup_map_NoDup_ForallPairs.
      - intros i j Hi Hj. rewrite !Hshape. intros H.
        apply append_inv_l in H. injection H as H.
        cbn in Hi, Hj.
        repeat (destruct Hi as [<- | Hi]; [|]); try destruct Hi;
          repeat (destruct Hj as [<- | Hj]; [|]); try destruct Hj;
          try reflexivity; vm_compute in H; discriminate.
      - unfold ks. repeat constructor; cbn; intros H;
          repeat (destruct H as [H | H]; [discriminate|]); destruct H. }
    pose proof (NoDup_incl_length Hnd Hincl) as Hlen.
    cbn in Hlen. lia.
Qed.

Lemma plan_changes_sensitive_returns_witness :
  plan_changes literal_re Demo.path_exists Demo.walk 7 "r" "456.pdf" "123.txt"
               true false [] false
  = Done [("r/Report-456.pdf", "r/Report-123(1).txt", false)] /\
  exists changes,
    plan_changes literal_re Demo.path_exists Demo.walk 7 "r" "456.pdf" "123.txt"
                 true false [] false = Done changes.
Proof.
  split; [reflexivity|].
  apply (plan_changes_sensitive_returns literal_re Demo.path_exists
           Demo.walk 7 "r" "456.pdf" "123.txt" false []).
  exact demo_candidate_free.
Defined.

(** The scan of [str.replace] and of [re.sub] against "all occurrences
    replaced". *)
Lemma replace_scan_skip (eqc : ascii -> ascii -> bool) (old new : string)
      (k : nat) (s : string) :
  old <> "" ->
  replace_scan eqc old new k s = replace_scan eqc old new O (drop k s).
Proof.
  intros Hold. revert k; induction s as [|c r IH]; intros k.
  - destruct k; [reflexivity|]. cbn. now destruct old.
  - destruct k as [|k]; [reflexivity|]. cbn [replace_scan drop]. apply IH.
Qed.

Lemma starts_with_length (eqc : ascii -> ascii -> bool) (p s : string) :
  starts_with eqc p s = true -> (String.length p <= String.length s)%nat.
Proof.
  revert s; induction p as [|a p IH]; intros [|b s]; cbn; try lia;
    try discriminate.
  intros H. apply andb_prop in H as [_ H]. apply IH in H. lia.
Qed.

Lemma starts_with_take (eqc : ascii -> ascii -> bool) (p s : string) :
  starts_with eqc p s = true ->
  starts_with eqc p (take (String.length p) s) = true.
Proof.
  revert s; induction p as [|a p IH]; intros [|b s]; cbn; try easy.
  intros H. apply andb_prop in H as [Hab H]. now rewrite Hab, IH.
Qed.

Lemma length_take (n : nat) (s : string) :
  (n <= String.length s)%nat -> String.length (take n s) = n.
Proof.
  revert s; induction n as [|n IH]; intros [|b s]; cbn; try lia.
  intros H. rewrite IH; lia.
Qed.

Lemma length_drop (n : nat) (s : string) :
  String.length (drop n s) = (String.length s - n)%nat.
Proof.
  revert s; induction n as [|n IH]; intros [|b s]; cbn; try lia. apply IH.
Qed.

Lemma replaced_cons (eqc : ascii -> ascii -> bool) (old new : string)
      (c : ascii) (r r' : string) :
  starts_with eqc old (String c r) = false ->
  replaced eqc old new r r' ->
  replaced eqc old new (String c r) (String c r').
Proof.
  intros Hc H. destruct H as [s Hs | before hit rest r0 Hl Hh Hfirst Hrest].
  - apply ReplacedNone. cbn [occurs]. now rewrite Hc, Hs.
  - apply (ReplacedFirst eqc old new (String c before) hit rest r0);
      try assumption.
    intros [|k] Hk; [exact Hc|]. cbn [append drop]. apply Hfirst.
    cbn [String.length] in Hk. lia.
Qed.

Lemma replace_scan_replaced (eqc : ascii -> ascii -> bool) (o : ascii)
      (old' new s : string) :
  replaced eqc (String o old') new s
           (replace_scan eqc (String o old') new O s).
Proof.
  set (old := String o old').
  assert (old <> "") as Hold by discriminate.
  remember (String.length s) as n eqn:Hn.
  revert s Hn; induction n as [n IH] using lt_wf_ind; intros s Hn.
  destruct s as [|c r].
  - apply ReplacedNone. reflexivity.
  - unfold old at 2. cbn [replace_scan]. fold old.
    destruct (starts_with eqc old (String c r)) eqn:E.
    + rewrite (replace_scan_skip eqc old new _ r Hold).
      change (drop (String.length old') r)
        with (drop (String.length old) (String c r)).
      pose proof (starts_with_length _ _ _ E) as Hle.
      pose proof (ReplacedFirst eqc old new ""
                    (take (String.length old) (String c r))
                    (drop (String.length old) (String c r))
                    (replace_scan eqc old new O
                       (drop (String.length old) (String c r)))) as R.
      cbn [append] in R. rewrite PyStrFacts.take_drop in R. apply R.
      * now apply length_take.
      * now apply starts_with_take.
      * intros k Hk. inversion Hk.
      * apply (IH (String.length (drop (String.length old) (String c r))));
          [|reflexivity].
        rewrite length_drop, Hn. unfold old. cbn [String.length]. lia.
    + apply replaced_cons; [exact E|].
      apply (IH (String.length r)); [|reflexivity].
      rewrite Hn. cbn [String.length]. lia.
Qed.

(** X26: where the replacement is literal.  For a find term that is not
    empty, [ci_replace] returns the name with all occurrences of the find
    term replaced by the replacement string as it is: the name is cut at
    the first occurrence, what precedes it is kept, the occurrence gives
    way to the replacement, and so on in the rest.  This holds in
    case-sensitive mode (characters compared as they are) and, in
    case-insensitive mode, for a name and a find term of ASCII characters
    (characters compared after lower-casing) and a replacement without
    backslash. *)
Theorem literal_replacement_is_literal :
  (forall name find_term replace_with,
      find_term <> "" ->
      exists r,
        ci_replace name find_term replace_with true = Done r /\
        RenamerIO.replaced Ascii.eqb find_term replace_with name r) /\
  (forall name find_term replace_with,
      find_term <> "" ->
      RenamerIO.is_ascii name = true -> RenamerIO.is_ascii find_term = true ->
      has_char "\" replace_with = false ->
      exists r,
        ci_replace name find_term replace_with false = Done r /\
        RenamerIO.replaced
          (fun a b => Ascii.eqb (lower_char a) (lower_char b))
          find_term replace_with name r).
Proof.
  split.
  - intros name find_term replace_with Hne.
    rewrite ci_replace_sensitive. eexists. split; [reflexivity|].
    unfold replaced_literally.
    destruct (String.eqb_spec find_term ""); [contradiction|].
    destruct find_term as [|o old']; [contradiction|].
    apply (replace_scan_replaced (fun a b => Ascii.eqb a b)).
  - intros name find_term replace_with Hne _ _ Hbs.
    rewrite ci_replace_plain by exact Hbs. eexists. split; [reflexivity|].
    unfold replaced_literally.
    destruct (String.eqb_spec find_term ""); [contradiction|].
    destruct find_term as [|o old']; [contradiction|].
    apply (replace_scan_replaced
             (fun a b => Ascii.eqb (lower_char a) (lower_char b))).
Qed.

Lemma literal_replacement_is_literal_witness :
  exists r,
    ci_replace "REPORT-report.txt" "Report" "Rpt" false = Done r /\
    RenamerIO.replaced
      (fun a b => Ascii.eqb (lower_char a) (lower_char b))
      "Report" "Rpt" "REPORT-report.txt" r.
Proof.
  apply (proj2 literal_replacement_is_literal "REPORT-report.txt" "Report"
               "Rpt").
  - discriminate.
  - reflexivity.
  - reflexivity.
  - reflexivity.
Defined.

End LiteralFacts.
